(** * SteamReview: the summarisation engine (llm.py) and the batch loop (main.py)

    A shallow embedding of [llm.py] and of the review loop of [main.py], and
    the properties of the retry / repair policy proved on it.

    Conventions of the embedding:
    - a Python [str] is a list of Unicode code points ([pystr]);
    - a value produced by [json.loads] is a [pyval];
    - code that talks to the outside (the Gemini client, [re], [json],
      [hashlib], [str.lower], [repr]) is a field of [Runtime];
    - a function that may raise returns a [result]; a function that also
      calls the model or sleeps runs in the monad [M], whose state is the
      chronological trace of requests and sleeps;
    - objects that [main.run] mutates live in a heap of [pyval]s, and the
      cache and the snapshot list hold heap addresses. *)

From Stdlib Require Import ZArith QArith List String Ascii Lia.
From Stdlib Require Import Floats.SpecFloat.
From stdpp Require Import base option list gmap pretty.

Set Warnings "-register-all".
Local Open Scope Z_scope.

(** ** Python strings *)

Definition pystr : Type := list N.

(** An ASCII literal of the source, as a [pystr]. *)
Definition lit (s : string) : pystr :=
  map N_of_ascii (list_ascii_of_string s).

(** [str.isspace] for one code point; [str.strip] and the regular
    expression class [\s] (on [str] patterns) use the same table. *)
Definition isspace (c : N) : bool :=
  ((9 <=? c) && (c <=? 13) || (28 <=? c) && (c <=? 32)
   || (c =? 133) || (c =? 160) || (c =? 5760)
   || (8192 <=? c) && (c <=? 8202)
   || (c =? 8232) || (c =? 8233) || (c =? 8239) || (c =? 8287)
   || (c =? 12288))%N.

Fixpoint lstrip (s : pystr) : pystr :=
  match s with
  | [] => []
  | c :: s' => if isspace c then lstrip s' else s
  end.

Definition rstrip (s : pystr) : pystr := rev (lstrip (rev s)).

(** [s.strip()] *)
Definition strip (s : pystr) : pystr := rstrip (lstrip s).

(** [_WS_RE.sub(" ", s)] with [_WS_RE = re.compile(r"\s+")]: every maximal
    run of whitespace becomes one space.  [in_run] tells that the previous
    code point was whitespace, already replaced. *)
Fixpoint ws_sub_from (in_run : bool) (s : pystr) : pystr :=
  match s with
  | [] => []
  | c :: s' =>
      if isspace c
      then (if in_run then ws_sub_from true s' else 32%N :: ws_sub_from true s')
      else c :: ws_sub_from false s'
  end.

Definition ws_sub (s : pystr) : pystr := ws_sub_from false s.

(** [s.split(sep)] for a one-character separator: cuts at every occurrence,
    empty pieces included. *)
Fixpoint split_on (sep : N) (s : pystr) : list pystr :=
  match s with
  | [] => [[]]
  | c :: s' =>
      if (c =? sep)%N then [] :: split_on sep s'
      else match split_on sep s' with
           | w :: ws => (c :: w) :: ws
           | [] => [[c]]
           end
  end.

(** Truth value of a [str]. *)
Definition str_truthy (s : pystr) : bool :=
  match s with [] => false | _ => true end.

(** [_count_words]:
    [len([w for w in _WS_RE.sub(" ", (text or "").strip()).split(" ") if w])] *)
Definition _count_words (text : pystr) : Z :=
  Z.of_nat (length (filter (fun w => str_truthy w = true)
                           (split_on 32%N (ws_sub (strip text))))).

(** [str(n)] for an [int]. *)
Definition str_int (n : Z) : pystr := lit (pretty n).

(** ** Values and exceptions *)

Inductive pyval : Type :=
| PNone
| PBool (b : bool)
| PInt (n : Z)
| PFloat (f : spec_float)
| PStr (s : pystr)
| PList (l : list pyval)
| PDict (d : list (pystr * pyval)).

(** An instance of a subclass of [Exception]: its class and what [str(e)]
    gives.  Signals that are not [Exception]s ([KeyboardInterrupt],
    [SystemExit]) are outside the model. *)
Record exn : Type := Exn { exn_class : string; exn_str : pystr }.

Inductive result (A : Type) : Type :=
| Ok (a : A)
| Raise (e : exn).
Arguments Ok {A} a.
Arguments Raise {A} e.

(** [bool(v)] *)
Definition truthy (v : pyval) : bool :=
  match v with
  | PNone => false
  | PBool b => b
  | PInt n => negb (n =? 0)
  | PFloat (S754_zero _) => false
  | PFloat _ => true
  | PStr s => str_truthy s
  | PList l => match l with [] => false | _ => true end
  | PDict d => match d with [] => false | _ => true end
  end.

(** A [dict] keeps its keys in insertion order. *)
Fixpoint dict_get (d : list (pystr * pyval)) (k : pystr) : option pyval :=
  match d with
  | [] => None
  | (k', v) :: d' => if decide (k' = k) then Some v else dict_get d' k
  end.

(** [d[k] = v] *)
Fixpoint dict_set (d : list (pystr * pyval)) (k : pystr) (v : pyval)
  : list (pystr * pyval) :=
  match d with
  | [] => [(k, v)]
  | (k', v') :: d' =>
      if decide (k' = k) then (k, v) :: d' else (k', v') :: dict_set d' k v
  end.

Definition type_name (v : pyval) : string :=
  match v with
  | PNone => "NoneType"
  | PBool _ => "bool"
  | PInt _ => "int"
  | PFloat _ => "float"
  | PStr _ => "str"
  | PList _ => "list"
  | PDict _ => "dict"
  end.

Definition AttributeError (v : pyval) (attr : string) : exn :=
  Exn "AttributeError"
      (lit ("'" ++ type_name v ++ "' object has no attribute '" ++ attr ++ "'")).

(** [x.get(k, dflt)]: only a [dict] has the method. *)
Definition get_method (x : pyval) (k : pystr) (dflt : pyval) : result pyval :=
  match x with
  | PDict d => Ok (default dflt (dict_get d k))
  | _ => Raise (AttributeError x "get")
  end.

(** ** The runtime: what the code calls outside of this repository *)

Definition ascii_lower (c : N) : N :=
  if ((65 <=? c) && (c <=? 90))%N then (c + 32)%N else c.

Record Runtime : Type := {
  (** [MODEL.generate_content(prompt, generation_config=...)] followed by
      [resp.text], for the request number [n] of the run (counted from 0):
      the text of the response ([None] allowed) or the exception raised. *)
  generate_content : nat -> pystr -> result (option pystr);
  (** [_CODE_FENCE_RE.search(s)]: group 1 of the first match, if any. *)
  code_fence_search : pystr -> option pystr;
  (** [re.search(r"\{.*\}", s, re.S)]: group 0 of the first match, if any. *)
  brace_search : pystr -> option pystr;
  (** [json.loads] *)
  json_loads : pystr -> result pyval;
  (** [str(v)] for a value that is not a [str]. *)
  repr_value : pyval -> pystr;
  (** [s.lower()] *)
  lower : pystr -> pystr;
  (** [hashlib.sha1(text.encode("utf-8")).hexdigest()] *)
  sha1_hexdigest : pystr -> pystr;
  (** On ASCII text, [lower] changes the letters A-Z only. *)
  lower_ascii :
    forall s, Forall (fun c => (c < 128)%N) s -> lower s = map ascii_lower s
}.

(** [str(v)] *)
Definition py_str (rt : Runtime) (v : pyval) : pystr :=
  match v with
  | PStr s => s
  | _ => repr_value rt v
  end.

(** ** The monad of effectful code *)

Inductive event : Type :=
| EvGenerate (prompt : pystr)   (* a request sent to the model *)
| EvSleep (seconds : Q).        (* a completed [time.sleep] *)

Definition trace : Type := list event.

(** The prompts sent so far, oldest first. *)
Definition prompts (tr : trace) : list pystr :=
  omap (fun ev => match ev with EvGenerate p => Some p | EvSleep _ => None end) tr.

(** The sleeps made so far, oldest first. *)
Definition sleeps (tr : trace) : list Q :=
  omap (fun ev => match ev with EvSleep d => Some d | EvGenerate _ => None end) tr.

Definition M (A : Type) : Type := trace -> result A * trace.

Definition ret {A} (a : A) : M A := fun tr => (Ok a, tr).

Definition raise {A} (e : exn) : M A := fun tr => (Raise e, tr).

Definition bind {A B} (m : M A) (k : A -> M B) : M B :=
  fun tr =>
    match m tr with
    | (Ok a, tr') => k a tr'
    | (Raise e, tr') => (Raise e, tr')
    end.

(** [try: m  except Exception as e: h e] *)
Definition try_except {A} (m : M A) (h : exn -> M A) : M A :=
  fun tr =>
    match m tr with
    | (Ok a, tr') => (Ok a, tr')
    | (Raise e, tr') => h e tr'
    end.

Definition lift {A} (r : result A) : M A := fun tr => (r, tr).

Declare Scope py_scope.
Delimit Scope py_scope with py.
Notation "x <- m ;; k" := (bind m (fun x => k))
  (at level 100, m at next level, right associativity) : py_scope.
Notation "m ;;; k" := (bind m (fun _ => k))
  (at level 100, right associativity) : py_scope.
Local Open Scope py_scope.

(** [time.sleep(d)]: a negative length raises [ValueError].  The duration is
    an exact rational; rounding and overflow of Python floats are not
    modelled. *)
Definition sleep (d : Q) : M unit :=
  fun tr =>
    if Qle_bool 0 d then (Ok tt, tr ++ [EvSleep d])
    else (Raise (Exn "ValueError" (lit "sleep length must be non-negative")), tr).

(** One request to the model: it is logged, and answered by the runtime
    according to its rank among the requests of the run. *)
Definition generate (rt : Runtime) (prompt : pystr) : M (option pystr) :=
  fun tr =>
    (generate_content rt (length (prompts tr)) prompt, tr ++ [EvGenerate prompt]).

(** ** llm.py *)

Definition nl : pystr := [10%N].
Definition dquote : pystr := [34%N].

Definition SYSTEM : pystr :=
  lit "You summarise Steam game reviews." ++ nl
  ++ lit "Return EXACTLY this JSON wrapped in triple backticks:" ++ nl
  ++ lit "```json" ++ nl
  ++ lit "{" ++ dquote ++ lit "sentiment" ++ dquote ++ lit ":"
  ++ dquote ++ lit "pos|neg|mixed" ++ dquote ++ lit ","
  ++ dquote ++ lit "tldr" ++ dquote ++ lit ":"
  ++ dquote ++ lit "10-word fluent sentence" ++ dquote ++ lit "}"
  ++ nl ++ lit "```"
  ++ nl ++ lit "Rules:"
  ++ nl ++ lit "- tldr must be a natural sentence of exactly 10 words."
  ++ nl ++ lit "- Count words (tokens separated by spaces), not characters."
  ++ nl ++ lit "- sentiment must be one of: pos, neg, mixed (lowercase)."
  ++ nl ++ lit "- Do not include any commentary outside the JSON fences.".

(** The two sets of [_normalize_sentiment].  The third member of each is
    written in the source file as the code points U+00F0 U+0178 U+2018
    (followed by U+017D in the negative set). *)
Definition positive_tokens : list pystr :=
  [lit "pos"; lit "positive"; [240; 376; 8216]%N; lit "good"].

Definition negative_tokens : list pystr :=
  [lit "neg"; lit "negative"; [240; 376; 8216; 381]%N; lit "bad"].

Section Llm.

Context (rt : Runtime).

(** [_strip_code_fence] *)
Definition _strip_code_fence (s : pystr) : pystr :=
  match code_fence_search rt s with
  | Some g1 => strip g1
  | None =>
      match brace_search rt s with
      | Some g0 => strip g0
      | None => strip s
      end
  end.

(** [_normalize_sentiment].  [(s or "")] keeps a truthy [s] whatever its
    type, and [.strip] exists on [str] only. *)
Definition _normalize_sentiment (s : pyval) : result pystr :=
  let s1 := if truthy s then s else PStr [] in
  match s1 with
  | PStr t =>
      let s2 := lower rt (strip t) in
      if bool_decide (s2 ∈ positive_tokens) then Ok (lit "pos")
      else if bool_decide (s2 ∈ negative_tokens) then Ok (lit "neg")
      else Ok (lit "mixed")
  | _ => Raise (AttributeError s1 "strip")
  end.

(** Lines 64-67 of [_ask_gemini]: the prompt. *)
Definition prompt_of (review_text extra_instruction : pystr) : pystr :=
  let prompt := SYSTEM in
  let prompt :=
    if str_truthy extra_instruction
    then prompt ++ nl ++ nl ++ extra_instruction
    else prompt in
  prompt ++ nl ++ nl ++ lit "Review:" ++ nl ++ review_text.

(** Lines 78-79 of [_ask_gemini]: from the text of the response to the
    parsed value. *)
Definition parse_response (resp_text : option pystr) : result pyval :=
  let raw := _strip_code_fence (strip (default [] resp_text)) in
  json_loads rt raw.

(** [_ask_gemini] *)
Definition _ask_gemini (review_text extra_instruction : pystr) : M pyval :=
  resp_text <- generate rt (prompt_of review_text extra_instruction) ;;
  lift (parse_response resp_text).

(** What [_ask_gemini] returns when its request is the request number [n]
    of the run. *)
Definition ask_at (n : nat) (review_text extra_instruction : pystr)
  : result pyval :=
  match generate_content rt n (prompt_of review_text extra_instruction) with
  | Ok resp_text => parse_response resp_text
  | Raise e => Raise e
  end.

(** Line 129: the returned [dict]. *)
Definition summary (sentiment tldr : pystr) : pyval :=
  PDict [(lit "sentiment", PStr sentiment); (lit "tldr", PStr tldr)].

Section Summarise.

Variable review_text : pystr.
Variable retries : Z.
Variable backoff : Q.
Variables accept_min accept_max extreme_min extreme_max : Z.

(** The [extra_instruction] of the repair request. *)
Definition repair_instruction : pystr :=
  lit "Rewrite the TL;DR as a fluent sentence of about 10 words "
  ++ lit "(acceptable range " ++ str_int accept_min
  ++ [226; 8364; 8220]%N ++ str_int accept_max ++ lit "). "
  ++ lit "Only return the JSON.".

(** Lines 113-127: the inner [try], whose handler is [pass].  It yields the
    values of [tldr] and [wc] after the statement. *)
Definition repair (tldr : pystr) (wc : Z) : M (pystr * Z) :=
  try_except
    (data2 <- _ask_gemini review_text repair_instruction ;;
     v2 <- lift (get_method data2 (lit "tldr") (PStr [])) ;;
     let tldr2 := strip (py_str rt v2) in
     let wc2 := _count_words tldr2 in
     if Z.abs (wc2 - 10) <? Z.abs (wc - 10)
     then ret (tldr2, wc2)
     else ret (tldr, wc))
    (fun _ => ret (tldr, wc)).

(** Lines 107-129: the body of the outer [try]. *)
Definition attempt_body : M pyval :=
  data <- _ask_gemini review_text [] ;;
  v <- lift (get_method data (lit "tldr") (PStr [])) ;;
  let tldr := strip (py_str rt v) in
  s <- lift (get_method data (lit "sentiment") PNone) ;;
  sentiment <- lift (_normalize_sentiment s) ;;
  let wc := _count_words tldr in
  r <- (if (wc <? extreme_min) || (wc >? extreme_max)
        then repair tldr wc
        else ret (tldr, wc)) ;;
  ret (summary sentiment (fst r)).

(** Lines 105-138: the [for attempt in range(retries + 1)] loop with [n]
    iterations left, followed by the final [raise last_err] (raising [None]
    is a [TypeError]). *)
Fixpoint summarise_loop (n : nat) (attempt : Z) (last_err : option exn)
  : M pyval :=
  match n with
  | O =>
      match last_err with
      | Some e => raise e
      | None =>
          raise (Exn "TypeError" (lit "exceptions must derive from BaseException"))
      end
  | S n' =>
      try_except attempt_body
        (fun e =>
           if attempt <? retries
           then (sleep (backoff * inject_Z (2 ^ attempt)) ;;;
                 summarise_loop n' (attempt + 1) (Some e))
           else raise e)
  end.

Definition summarise : M pyval :=
  summarise_loop (Z.to_nat (retries + 1)) 0 None.

(** *** The same steps, told by the rank of the request

    A failed attempt makes one request, so the attempts of one call of
    [summarise] can be named by the rank of their primary request. *)

(** Lines 108-109 on the parsed data: the stripped [tldr] and the
    normalized sentiment. *)
Definition primary_fields (data : pyval) : result (pystr * pystr) :=
  match get_method data (lit "tldr") (PStr []) with
  | Raise e => Raise e
  | Ok v =>
      match get_method data (lit "sentiment") PNone with
      | Raise e => Raise e
      | Ok s =>
          match _normalize_sentiment s with
          | Raise e => Raise e
          | Ok sentiment => Ok (strip (py_str rt v), sentiment)
          end
      end
  end.

(** The primary call-and-parse sequence (lines 107-109) when its request
    is number [n]. *)
Definition primary_at (n : nat) : result (pystr * pystr) :=
  match ask_at n review_text [] with
  | Ok data => primary_fields data
  | Raise e => Raise e
  end.

(** The repair request and its parsing (lines 114-122) when the request is
    number [n]: the repaired [tldr2]. *)
Definition repair_at (n : nat) : result pystr :=
  match ask_at n review_text repair_instruction with
  | Ok data2 =>
      match get_method data2 (lit "tldr") (PStr []) with
      | Ok v2 => Ok (strip (py_str rt v2))
      | Raise e => Raise e
      end
  | Raise e => Raise e
  end.

(** The [tldr] kept after the inner [try] (lines 113-127) when the repair
    request is number [n]: the repaired one if the repair went through and
    is strictly closer to 10 words, the original one otherwise. *)
Definition kept_tldr (n : nat) (tldr : pystr) : pystr :=
  match repair_at n with
  | Ok tldr2 =>
      if Z.abs (_count_words tldr2 - 10) <? Z.abs (_count_words tldr - 10)
      then tldr2 else tldr
  | Raise _ => tldr
  end.

Definition primary_request : event := EvGenerate (prompt_of review_text []).

Definition repair_request : event :=
  EvGenerate (prompt_of review_text repair_instruction).

(** What [k] failed attempts leave in the trace: each one its primary
    request and, after it, the sleep before the next attempt. *)
Definition retry_trace (k : nat) : trace :=
  flat_map (fun i => [primary_request;
                      EvSleep (backoff * inject_Z (2 ^ Z.of_nat i))])
           (seq 0 k).

End Summarise.

(** [summarise(review_text)] with the default arguments. *)
Definition summarise_default (review_text : pystr) : M pyval :=
  summarise review_text 2 (4 # 5) 8 12 6 16.

End Llm.

(** ** main.py: the review loop of [run] *)

Definition rbind {A B} (r : result A) (k : A -> result B) : result B :=
  match r with
  | Ok a => k a
  | Raise e => Raise e
  end.

Notation "x <~ r ;; k" := (rbind r (fun x => k))
  (at level 100, r at next level, right associativity) : py_scope.

(** A review as [fetch_reviews] builds it (steam.py, line 66): the author
    and the text are whatever the payload holds, the flag is a [bool]. *)
Record Review : Type := {
  author : pyval;
  text : pyval;
  recommended : bool
}.

(** The object bound to [cache]: [{}], or what [_load_cache] returned.  The
    values of a [dict] are heap addresses; any other JSON value is kept as
    it is, for nothing can be stored in it. *)
Inductive cache_value : Type :=
| CDict (entries : gmap pystr nat)
| CList (l : list pyval)
| CStr (s : pystr)
| CNone
| CBool (b : bool)
| CInt (n : Z)
| CFloat (f : spec_float).

(** The state of the loop.  A [dict] that the loop may mutate is a cell of
    the heap; [cache] and [snapshots] hold addresses, so that one object
    reached twice is one cell. *)
Record run_state : Type := {
  rs_trace : trace;
  rs_heap : list pyval;
  rs_cache : cache_value;
  rs_snapshots : list nat
}.

(** [s[k] = v] *)
Definition setitem (s : pyval) (k : pystr) (v : pyval) : result pyval :=
  match s with
  | PDict d => Ok (PDict (dict_set d k v))
  | PList _ =>
      Raise (Exn "TypeError"
                 (lit "list indices must be integers or slices, not str"))
  | _ =>
      Raise (Exn "TypeError"
                 (lit ("'" ++ type_name s
                       ++ "' object does not support item assignment")))
  end.

(** Line 123: the [dict] appended by the handler. *)
Definition error_snapshot (e : exn) (rev : Review) : pyval :=
  PDict [(lit "error", PStr (exn_str e)); (lit "author", author rev)].

(** The entries of the cache when it is a [dict]. *)
Definition entries_of (c : cache_value) : gmap pystr nat :=
  match c with
  | CDict m => m
  | _ => ∅
  end.

Definition cache_type (c : cache_value) : string :=
  match c with
  | CDict _ => "dict"
  | CList _ => "list"
  | CStr _ => "str"
  | CNone => "NoneType"
  | CBool _ => "bool"
  | CInt _ => "int"
  | CFloat _ => "float"
  end.

Definition TypeError (msg : string) : exn := Exn "TypeError" (lit msg).

(** [p] is found in [s] from its first character on. *)
Fixpoint starts_with (p s : pystr) : bool :=
  match p, s with
  | [], _ => true
  | _ :: _, [] => false
  | a :: p', b :: s' => (a =? b)%N && starts_with p' s'
  end.

(** [p in s] for two [str]: [p] is a substring of [s]. *)
Fixpoint contains (p s : pystr) : bool :=
  starts_with p s
  || match s with
     | [] => false
     | _ :: s' => contains p s'
     end.

(** [x == key] for a [str] [key] and a JSON value [x]. *)
Definition is_str (key : pystr) (x : pyval) : bool :=
  match x with
  | PStr s => bool_decide (s = key)
  | _ => false
  end.

(** [key in cache].  The messages of the exceptions of this operation and
    of the next two are those of CPython 3.11 to 3.13. *)
Definition cache_contains (c : cache_value) (key : pystr) : result bool :=
  match c with
  | CDict m => Ok (bool_decide (is_Some (m !! key)))
  | CList l => Ok (existsb (is_str key) l)
  | CStr s => Ok (contains key s)
  | _ =>
      Raise (TypeError ("argument of type '" ++ cache_type c
                        ++ "' is not iterable"))
  end.

(** [cache[key]], an address when the cache is a [dict]. *)
Definition cache_getitem (c : cache_value) (key : pystr) : result nat :=
  match c with
  | CDict m =>
      match m !! key with
      | Some l => Ok l
      | None => Raise (Exn "KeyError" ([39%N] ++ key ++ [39%N]))
      end
  | CList _ =>
      Raise (TypeError "list indices must be integers or slices, not str")
  | CStr _ => Raise (TypeError "string indices must be integers, not 'str'")
  | _ => Raise (TypeError ("'" ++ cache_type c ++ "' object is not subscriptable"))
  end.

(** [cache[key] = s], for [s] at the address [l]. *)
Definition cache_setitem (c : cache_value) (key : pystr) (l : nat)
  : result cache_value :=
  match c with
  | CDict m => Ok (CDict (<[key := l]> m))
  | CList _ =>
      Raise (TypeError "list indices must be integers or slices, not str")
  | _ =>
      Raise (TypeError ("'" ++ cache_type c
                        ++ "' object does not support item assignment"))
  end.

(** A surrogate code point (U+D800 to U+DFFF) has no UTF-8 encoding. *)
Definition is_surrogate (c : N) : bool := ((55296 <=? c) && (c <=? 57343))%N.

(** The length of the run of surrogates that starts [s]. *)
Fixpoint surrogate_run (s : pystr) : nat :=
  match s with
  | c :: s' => if is_surrogate c then S (surrogate_run s') else 0%nat
  | [] => 0%nat
  end.

(** The first surrogate of [s]: its position ([i] is the position of the
    head of [s]), the code point, and the length of the run it starts. *)
Fixpoint first_surrogate (i : nat) (s : pystr) : option (nat * N * nat) :=
  match s with
  | [] => None
  | c :: s' =>
      if is_surrogate c then Some (i, c, S (surrogate_run s'))
      else first_surrogate (S i) s'
  end.

Definition hex_digit (d : N) : N :=
  if (d <? 10)%N then (48 + d)%N else (87 + d)%N.

Definition hex4 (c : N) : pystr :=
  [hex_digit (c / 4096 mod 16); hex_digit (c / 256 mod 16);
   hex_digit (c / 16 mod 16); hex_digit (c mod 16)]%N.

(** The error of [text.encode("utf-8")] on a run of [n] surrogates at
    position [start], the first of which is [c]. *)
Definition UnicodeEncodeError (start : nat) (c : N) (n : nat) : exn :=
  Exn "UnicodeEncodeError"
      (lit "'utf-8' codec can't encode "
       ++ (if (n =? 1)%nat
           then lit "character '" ++ [92%N] ++ lit "u" ++ hex4 c
                ++ lit "' in position " ++ str_int (Z.of_nat start)
           else lit "characters in position " ++ str_int (Z.of_nat start)
                ++ lit "-" ++ str_int (Z.of_nat (start + n - 1)))
       ++ lit ": surrogates not allowed").

Section Main.

Context (rt : Runtime).

(** [_hash_text].  [encode] is a method of [str], and it raises on a text
    with a surrogate. *)
Definition _hash_text (text : pyval) : result pystr :=
  match text with
  | PStr t =>
      match first_surrogate 0 t with
      | Some (i, c, n) => Raise (UnicodeEncodeError i c n)
      | None => Ok (sha1_hexdigest rt t)
      end
  | _ => Raise (AttributeError text "encode")
  end.

(** [_load_cache].  [file] is [None] when the path does not exist, and
    otherwise what [read_text] gives. *)
Definition _load_cache (file : option (result pystr)) : pyval :=
  match file with
  | Some (Ok content) =>
      match json_loads rt content with
      | Ok v => v
      | Raise _ => PDict []
      end
  | Some (Raise _) => PDict []
  | None => PDict []
  end.

(** Lines 122-123: the handler allocates a new [dict] and appends it. *)
Definition on_error (rev : Review) (e : exn) (st : run_state) : run_state :=
  {| rs_trace := rs_trace st;
     rs_heap := rs_heap st ++ [error_snapshot e rev];
     rs_cache := rs_cache st;
     rs_snapshots := rs_snapshots st ++ [length (rs_heap st)] |}.

(** Lines 119-121 on the object at address [l]: two item assignments, then
    the append.  A failing assignment goes to the handler.  The address is
    always allocated: it is new, or held by the cache ([cache_wf]). *)
Definition attach (rev : Review) (l : nat) (st : run_state) : run_state :=
  match rs_heap st !! l with
  | None => st
  | Some s =>
      match setitem s (lit "author") (author rev) with
      | Raise e => on_error rev e st
      | Ok s1 =>
          match setitem s1 (lit "recommended") (PBool (recommended rev)) with
          | Raise e =>
              on_error rev e
                {| rs_trace := rs_trace st;
                   rs_heap := <[l := s1]> (rs_heap st);
                   rs_cache := rs_cache st;
                   rs_snapshots := rs_snapshots st |}
          | Ok s2 =>
              {| rs_trace := rs_trace st;
                 rs_heap := <[l := s2]> (rs_heap st);
                 rs_cache := rs_cache st;
                 rs_snapshots := rs_snapshots st ++ [l] |}
          end
      end
  end.

(** Lines 101-125: the [try] statement of one iteration, with its handler,
    for the [key] computed on line 100.  [summarise] puts its argument in
    the prompt with an f-string, that is through [str]. *)
Definition review_body (no_cache : bool) (key : pystr) (st : run_state)
    (rev : Review) : run_state :=
  match (if no_cache then Ok false else cache_contains (rs_cache st) key) with
  | Raise e => on_error rev e st
  | Ok true =>
      match cache_getitem (rs_cache st) key with
      | Raise e => on_error rev e st
      | Ok l => attach rev l st
      end
  | Ok false =>
      match summarise_default rt (py_str rt (text rev)) (rs_trace st) with
      | (Raise e, tr) =>
          on_error rev e
            {| rs_trace := tr;
               rs_heap := rs_heap st;
               rs_cache := rs_cache st;
               rs_snapshots := rs_snapshots st |}
      | (Ok s, tr) =>
          let l := length (rs_heap st) in
          match (if no_cache then Ok (rs_cache st)
                 else cache_setitem (rs_cache st) key l) with
          | Raise e =>
              on_error rev e
                {| rs_trace := tr;
                   rs_heap := rs_heap st ++ [s];
                   rs_cache := rs_cache st;
                   rs_snapshots := rs_snapshots st |}
          | Ok c =>
              attach rev l
                {| rs_trace := tr;
                   rs_heap := rs_heap st ++ [s];
                   rs_cache := c;
                   rs_snapshots := rs_snapshots st |}
          end
      end
  end.

(** Lines 100-125: one iteration of [for rev in reviews].  Line 100 is
    outside the [try]: an exception of [_hash_text] leaves the loop and
    [run]. *)
Definition process_review (no_cache : bool) (st : run_state) (rev : Review)
  : result run_state :=
  key <~ _hash_text (text rev) ;;
  Ok (review_body no_cache key st rev).

(** Lines 89-90: [cache] and [snapshots] before the loop.  [loaded] is the
    value returned by [_load_cache]; the values of a JSON object are
    objects of their own. *)
Definition initial_state (no_cache : bool) (loaded : pyval) : run_state :=
  match (if no_cache then PDict [] else loaded) with
  | PDict entries =>
      {| rs_trace := [];
         rs_heap := entries.*2;
         rs_cache :=
           CDict (list_to_map (zip (entries.*1) (seq 0 (length entries))));
         rs_snapshots := [] |}
  | other =>
      {| rs_trace := [];
         rs_heap := [];
         rs_cache :=
           match other with
           | PList l => CList l
           | PStr s => CStr s
           | PBool b => CBool b
           | PInt n => CInt n
           | PFloat f => CFloat f
           | _ => CNone
           end;
         rs_snapshots := [] |}
  end.

(** The loop from a given state; [Raise] is an exception that leaves it. *)
Fixpoint run_loop (no_cache : bool) (st : run_state) (reviews : list Review)
  : result run_state :=
  match reviews with
  | [] => Ok st
  | rev :: reviews' =>
      st' <~ process_review no_cache st rev ;;
      run_loop no_cache st' reviews'
  end.

(** Lines 89-125 of [run], with [debug] off. *)
Definition run (no_cache : bool) (loaded : pyval) (reviews : list Review)
  : result run_state :=
  run_loop no_cache (initial_state no_cache loaded) reviews.

(** The snapshots as the presentation layer reads them. *)
Definition snapshot_values (st : run_state) : list (option pyval) :=
  map (fun l => rs_heap st !! l) (rs_snapshots st).

(** A review whose text [_hash_text] accepts. *)
Definition hashable (rev : Review) : Prop :=
  exists key, _hash_text (text rev) = Ok key.

End Main.

(** ** A scripted runtime, for running the code on concrete inputs *)

(** The request number [n] is answered by the [n]-th entry of [replies]: an
    exception is raised by the client; a value is sent as a text that
    [json_loads] parses to that value.  Past the end of the script the
    client fails.  The response carries no code fence and no brace, the
    hash of a text is the text itself, and [repr_value] is Python's on
    [None], booleans and integers only. *)
Definition scripted (replies : list (result pyval)) : Runtime := {|
  generate_content n _ :=
    match replies !! n with
    | Some (Ok _) => Ok (Some [(48 + N.of_nat n)%N])
    | Some (Raise e) => Raise e
    | None => Raise (Exn "ConnectionError" (lit "no reply"))
    end;
  code_fence_search _ := None;
  brace_search _ := None;
  json_loads raw :=
    match raw with
    | [c] => default (Raise (Exn "JSONDecodeError" (lit "no reply")))
                     (replies !! N.to_nat (c - 48)%N)
    | _ => Raise (Exn "JSONDecodeError" (lit "Expecting value"))
    end;
  repr_value v :=
    match v with
    | PNone => lit "None"
    | PBool true => lit "True"
    | PBool false => lit "False"
    | PInt n => str_int n
    | _ => lit ("<" ++ type_name v ++ ">")
    end;
  lower := map ascii_lower;
  sha1_hexdigest text := text;
  lower_ascii _ _ := eq_refl
|}.

(** A reply [{"sentiment": s, "tldr": t}]. *)
Definition reply (s t : string) : result pyval :=
  Ok (PDict [(lit "sentiment", PStr (lit s)); (lit "tldr", PStr (lit t))]).

(** A sentence of [n] words. *)
Definition words (n : nat) : string :=
  String.concat " " (repeat "w"%string n).

(** A request that times out. *)
Definition timeout : result pyval :=
  Raise (Exn "TimeoutError" (lit "timed out")).

(** A response that is a JSON object with a numeric sentiment. *)
Definition numeric_sentiment : result pyval :=
  Ok (PDict [(lit "sentiment", PInt 5); (lit "tldr", PStr (lit (words 10)))]).

Definition a_review : pystr := lit "Amazing game, loved the story".

Definition review_of (a t : string) (r : bool) : Review :=
  {| author := PStr (lit a); text := PStr (lit t); recommended := r |}.

(** A review whose text is one lone surrogate, as [json] decodes the
    escape [\ud800]. *)
Definition surrogate_review (a : string) : Review :=
  {| author := PStr (lit a); text := PStr [55296%N]; recommended := true |}.

(** ** Predicates used in the statements *)

(** The three values of a normalized sentiment. *)
Definition sentiments : list pystr := [lit "pos"; lit "neg"; lit "mixed"].

(** The values that [_normalize_sentiment] accepts: the falsy ones ([None],
    [False], 0, 0.0, empty string, list or dict) and every [str]. *)
Definition sentiment_input (s : pyval) : Prop :=
  truthy s = false \/ exists t, s = PStr t.

(** Every address held by the cache is allocated. *)
Definition cache_wf (st : run_state) : Prop :=
  forall key l,
    entries_of (rs_cache st) !! key = Some l -> (l < length (rs_heap st))%nat.

(** The cell [l] is allocated and the cache does not hold its address. *)
Definition private (l : nat) (st : run_state) : Prop :=
  (l < length (rs_heap st))%nat
  /\ forall key l', entries_of (rs_cache st) !! key = Some l' -> l' <> l.

(** What an iteration may change: it appends one snapshot; it allocates
    cells, and writes only to cells that the cache holds or that it has
    just allocated; the cache gains at most the address of a new cell. *)
Definition extends (st st' : run_state) : Prop :=
  (exists x, rs_snapshots st' = rs_snapshots st ++ [x]
             /\ (x < length (rs_heap st'))%nat)
  /\ (length (rs_heap st) <= length (rs_heap st'))%nat
  /\ (forall key l, entries_of (rs_cache st') !! key = Some l ->
        (l < length (rs_heap st'))%nat
        /\ ((l < length (rs_heap st))%nat ->
            entries_of (rs_cache st) !! key = Some l))
  /\ (forall l, private l st -> rs_heap st' !! l = rs_heap st !! l).

(** The cache is a [dict]. *)
Definition dict_cache (st : run_state) : Prop :=
  exists m, rs_cache st = CDict m.

(** ** steam.py *)

(** [x[k]] for a [str] key [k].  The text of a [KeyError] is [repr(k)],
    written here for a key without quote or escape, as all the keys of
    the source are. *)
Definition getitem (x : pyval) (k : pystr) : result pyval :=
  match x with
  | PDict d =>
      match dict_get d k with
      | Some v => Ok v
      | None => Raise (Exn "KeyError" ([39%N] ++ k ++ [39%N]))
      end
  | PList _ =>
      Raise (Exn "TypeError"
                 (lit "list indices must be integers or slices, not str"))
  | PStr _ =>
      Raise (Exn "TypeError" (lit "string indices must be integers, not 'str'"))
  | _ =>
      Raise (Exn "TypeError"
                 (lit ("'" ++ type_name x ++ "' object is not subscriptable")))
  end.

(** The items that [for v in x] visits: the elements of a [list], the keys
    of a [dict], the characters of a [str]. *)
Definition py_iter (x : pyval) : result (list pyval) :=
  match x with
  | PList l => Ok l
  | PDict d => Ok (map (fun kv => PStr (fst kv)) d)
  | PStr s => Ok (map (fun c => PStr [c]) s)
  | _ =>
      Raise (Exn "TypeError"
                 (lit ("'" ++ type_name x ++ "' object is not iterable")))
  end.

(** [[f(x) for x in l]]: the first exception ends the comprehension. *)
Fixpoint comprehension {A B} (f : A -> result B) (l : list A)
  : result (list B) :=
  match l with
  | [] => Ok []
  | x :: l' =>
      y <~ f x ;;
      ys <~ comprehension f l' ;;
      Ok (y :: ys)
  end.

(** What steam.py calls outside of this repository. *)
Record Steam : Type := {
  (** [_SESSION.get(".../ISteamApps/GetAppList/v2/", timeout=10)],
      [raise_for_status()] and [resp.json()]. *)
  app_list : result pyval;
  (** [_SESSION.get(STEAM_REVIEWS.format(appid), params=params, timeout=10)]
      with [num_per_page = count], [raise_for_status()] and [r.json()]. *)
  app_reviews : pyval -> Z -> result pyval;
  (** [difflib.get_close_matches(title, names, n=1, cutoff=cutoff)] *)
  get_close_matches : pystr -> list pyval -> Q -> result (list pyval);
  (** [x == y] *)
  py_eq : pyval -> pyval -> bool;
  (** Two [str] are equal when they are the same text. *)
  py_eq_str : forall a b, py_eq (PStr a) (PStr b) = bool_decide (a = b);
  (** [get_close_matches] returns some of the [names] it is given. *)
  close_matches_in :
    forall title names cutoff r,
      get_close_matches title names cutoff = Ok r ->
      forall x, x ∈ r -> x ∈ names
}.

Section SteamPy.

Context (rt : Runtime) (sx : Steam).

(** [x.lower()]: a method of [str]. *)
Definition lower_method (x : pyval) : result pystr :=
  match x with
  | PStr s => Ok (lower rt s)
  | _ => Raise (AttributeError x "lower")
  end.

(** Lines 38-40: the first loop of [_get_appid]; [None] when it ends
    without [return]. *)
Fixpoint exact_match (low : pystr) (apps : list pyval)
  : result (option pyval) :=
  match apps with
  | [] => Ok None
  | app :: apps' =>
      name <~ getitem app (lit "name") ;;
      n <~ lower_method name ;;
      if bool_decide (n = low)
      then (appid <~ getitem app (lit "appid") ;; Ok (Some appid))
      else exact_match low apps'
  end.

(** Lines 50-52: the second loop of [_get_appid]. *)
Fixpoint chosen_match (chosen : pyval) (apps : list pyval)
  : result (option pyval) :=
  match apps with
  | [] => Ok None
  | app :: apps' =>
      name <~ getitem app (lit "name") ;;
      if py_eq sx name chosen
      then (appid <~ getitem app (lit "appid") ;; Ok (Some appid))
      else chosen_match chosen apps'
  end.

Definition ValueError (msg : string) : exn := Exn "ValueError" (lit msg).

(** [_get_appid] *)
Definition _get_appid (title : pystr) (fuzzy : bool) (cutoff : Q)
  : result pyval :=
  app_list_json <~ app_list sx ;;
  applist <~ getitem app_list_json (lit "applist") ;;
  apps_value <~ getitem applist (lit "apps") ;;
  let low := strip (lower rt title) in
  apps <~ py_iter apps_value ;;
  found <~ exact_match low apps ;;
  match found with
  | Some appid => Ok appid
  | None =>
      if negb fuzzy
      then Raise (ValueError "Game not found (tip: use fuzzy=True)")
      else
        names <~ comprehension (fun a => getitem a (lit "name")) apps ;;
        matches <~ get_close_matches sx title names cutoff ;;
        match matches with
        | [] => Raise (ValueError "Game not found (no fuzzy match above cutoff)")
        | chosen :: _ =>
            found' <~ chosen_match chosen apps ;;
            match found' with
            | Some appid => Ok appid
            | None => Raise (ValueError "Unexpected: fuzzy match not in list")
            end
        end
  end.

(** Line 66: the [dict] built for one review of the payload. *)
Definition review_record (rev : pyval) : result pyval :=
  a <~ getitem rev (lit "author") ;;
  steamid <~ getitem a (lit "steamid") ;;
  review <~ getitem rev (lit "review") ;;
  voted_up <~ get_method rev (lit "voted_up") (PBool false) ;;
  Ok (PDict [(lit "author", steamid); (lit "text", review);
             (lit "recommended", PBool (truthy voted_up))]).

(** [fetch_reviews]; the default [cutoff] of [_get_appid] is 0.68. *)
Definition fetch_reviews (game_title : pystr) (count : Z) (fuzzy : bool)
  : result (list pyval) :=
  appid <~ _get_appid game_title fuzzy (17 # 25) ;;
  data <~ app_reviews sx appid count ;;
  reviews <~ get_method data (lit "reviews") (PList []) ;;
  revs <~ py_iter reviews ;;
  comprehension review_record revs.

(** The apps that [_get_appid] goes through, from the decoded response. *)
Definition apps_of (app_list_json : pyval) : result (list pyval) :=
  applist <~ getitem app_list_json (lit "applist") ;;
  apps_value <~ getitem applist (lit "apps") ;;
  py_iter apps_value.

(** An app with the text [name] as its name, and no exact match for [low]. *)
Definition named (low : pystr) (app : pyval) : Prop :=
  exists name, getitem app (lit "name") = Ok (PStr name) /\ lower rt name <> low.

End SteamPy.

(** *** A scripted Steam, for running steam.py on concrete inputs *)

(** Equality of the scripted Steam: that of Python on two [str], and no
    other pair of values is compared in the scripts. *)
Definition str_eq (x y : pyval) : bool :=
  match x, y with
  | PStr a, PStr b => bool_decide (a = b)
  | _, _ => false
  end.

(** The app list and the reviews are fixed answers, and the close match of
    a title is the name of rank [pick], if there is one. *)
Definition steam_script (apps : result pyval) (reviews : result pyval)
    (pick : nat) : Steam := {|
  app_list := apps;
  app_reviews _ _ := reviews;
  get_close_matches _ names _ := Ok (option_list (names !! pick));
  py_eq := str_eq;
  py_eq_str _ _ := eq_refl;
  close_matches_in _ names _ r H x :=
    match H in (_ = o) return
          (match o with Ok r' => x ∈ r' -> x ∈ names | Raise _ => True end)
    with
    | eq_refl =>
        match names !! pick as o return
              (names !! pick = o -> x ∈ option_list o -> x ∈ names)
        with
        | Some n => fun E Hin =>
            list_elem_of_lookup_2 names pick x
              (eq_trans E (f_equal Some
                 (eq_sym (proj1 (list_elem_of_singleton x n) Hin))))
        | None => fun _ Hin => False_ind _ (proj1 (elem_of_nil x) Hin)
        end eq_refl
    end
|}.

Definition steam_app (name : string) (appid : Z) : pyval :=
  PDict [(lit "appid", PInt appid); (lit "name", PStr (lit name))].

Definition steam_apps (apps : list pyval) : result pyval :=
  Ok (PDict [(lit "applist", PDict [(lit "apps", PList apps)])]).

Definition steam_review (steamid text : string) (voted_up : bool) : pyval :=
  PDict [(lit "author", PDict [(lit "steamid", PStr (lit steamid))]);
         (lit "review", PStr (lit text));
         (lit "voted_up", PBool voted_up)].

Definition steam_reviews (revs : list pyval) : result pyval :=
  Ok (PDict [(lit "success", PInt 1); (lit "reviews", PList revs)]).

(** ** Reference definitions for the properties of the helpers *)

(** The number of maximal runs of visible (non-whitespace) characters of
    [s], counted in one pass; [sp] tells that the character before [s] is
    whitespace, or that [s] starts the text. *)
Fixpoint word_runs (sp : bool) (s : pystr) : nat :=
  match s with
  | [] => 0%nat
  | c :: s' =>
      if isspace c then word_runs true s'
      else ((if sp then 1 else 0) + word_runs false s')%nat
  end.

(** The same count when only the space character (U+0020) separates. *)
Fixpoint space_runs (sp : bool) (s : pystr) : nat :=
  match s with
  | [] => 0%nat
  | c :: s' =>
      if (c =? 32)%N then space_runs true s'
      else ((if sp then 1 else 0) + space_runs false s')%nat
  end.

(** Only whitespace, possibly nothing. *)
Definition blank (s : pystr) : Prop := forallb isspace s = true.

(** No whitespace, and at least one character: a word. *)
Definition visible (w : pystr) : Prop :=
  w <> [] /\ forallb (fun c => negb (isspace c)) w = true.

(** [" ".join(ws)] *)
Fixpoint join_words (ws : list pystr) : pystr :=
  match ws with
  | [] => []
  | [w] => w
  | w :: ws' => w ++ 32%N :: join_words ws'
  end.

(** A snapshot that [_print_table] can read: a [dict] with an author. *)
Definition has_author (v : pyval) : Prop :=
  exists d, v = PDict d /\ is_Some (dict_get d (lit "author")).

(** An error record: a [dict] with an [error] key. *)
Definition error_record (v : pyval) : Prop :=
  exists d, v = PDict d /\ is_Some (dict_get d (lit "error")).


(** * Properties *)

(** ** Strings and word counts *)

Lemma lstrip_whitespace (s : pystr) :
  forallb isspace s = true -> lstrip s = [].
Proof.
  induction s as [|c s IH]; simpl; [done|].
  intros [Hc Hs]%andb_true_iff. rewrite Hc. auto.
Qed.

Lemma strip_whitespace (s : pystr) :
  forallb isspace s = true -> strip s = [].
Proof. intros H. unfold strip. by rewrite lstrip_whitespace. Qed.

(** Spec, section 8: an empty or whitespace-only string has no word. *)
Lemma count_words_whitespace (s : pystr) :
  forallb isspace s = true -> _count_words s = 0.
Proof. intros H. unfold _count_words. by rewrite strip_whitespace. Qed.

Lemma lstrip_head (s : pystr) c r :
  lstrip s = c :: r -> isspace c = false.
Proof.
  induction s as [|a s IH]; simpl; [done|].
  destruct (isspace a) eqn:Ha; [done|]. by intros [= <- _].
Qed.

Lemma lstrip_snoc (l : pystr) c :
  isspace c = false -> lstrip (l ++ [c]) = lstrip l ++ [c].
Proof.
  intros Hc. induction l as [|a l IH]; simpl.
  - by rewrite Hc.
  - by destruct (isspace a).
Qed.

Lemma rstrip_cons (c : N) (r : pystr) :
  isspace c = false -> rstrip (c :: r) = c :: rstrip r.
Proof.
  intros Hc. unfold rstrip. simpl rev.
  by rewrite lstrip_snoc, rev_app_distr.
Qed.

(** A stripped string is empty or starts with a visible character. *)
Lemma strip_head (s : pystr) c r :
  strip s = c :: r -> isspace c = false.
Proof.
  unfold strip. destruct (lstrip s) as [|a t] eqn:E; [done|].
  pose proof (lstrip_head _ _ _ E) as Ha.
  rewrite rstrip_cons by done. by intros [= <- _].
Qed.

Lemma strip_cons (c : N) (r : pystr) :
  isspace c = false -> strip (c :: r) = c :: rstrip r.
Proof.
  intros Hc. unfold strip. simpl. rewrite Hc. by apply rstrip_cons.
Qed.

Lemma split_on_cons (sep : N) (s : pystr) :
  exists w ws, split_on sep s = w :: ws.
Proof.
  induction s as [|c s (w & ws & E)]; simpl; [by eauto|].
  destruct (c =? sep)%N; [by eauto|]. rewrite E. eauto.
Qed.

(** A string that starts with a visible character has a word. *)
Lemma count_words_visible (c : N) (r : pystr) :
  isspace c = false -> 0 < _count_words (c :: r).
Proof.
  intros Hc. unfold _count_words. rewrite strip_cons by done.
  unfold ws_sub. simpl. rewrite Hc. simpl.
  destruct (c =? 32)%N eqn:E.
  { apply N.eqb_eq in E. subst c. done. }
  destruct (split_on_cons 32%N (ws_sub_from false (rstrip r))) as (w & ws & ->).
  rewrite filter_cons_True by done. simpl. lia.
Qed.

(** A stripped string without words is the empty string. *)
Lemma count_words_zero (s : pystr) :
  _count_words (strip s) = 0 -> strip s = [].
Proof.
  destruct (strip s) as [|c r] eqn:E; [done|].
  pose proof (count_words_visible c r (strip_head _ _ _ E)). lia.
Qed.

(** ** The trace *)

Lemma prompts_app (tr1 tr2 : trace) :
  prompts (tr1 ++ tr2) = prompts tr1 ++ prompts tr2.
Proof. apply omap_app. Qed.

Lemma sleeps_app (tr1 tr2 : trace) :
  sleeps (tr1 ++ tr2) = sleeps tr1 ++ sleeps tr2.
Proof. apply omap_app. Qed.

Lemma requests_snoc_generate (tr : trace) p :
  length (prompts (tr ++ [EvGenerate p])) = S (length (prompts tr)).
Proof. rewrite prompts_app, length_app. simpl. lia. Qed.


(** ** Sentiment normalization *)

Lemma normalize_sentiment_str (rt : Runtime) (t : pystr) :
  _normalize_sentiment rt (PStr t)
  = Ok (if bool_decide (lower rt (strip t) ∈ positive_tokens) then lit "pos"
        else if bool_decide (lower rt (strip t) ∈ negative_tokens) then lit "neg"
        else lit "mixed").
Proof.
  unfold _normalize_sentiment.
  destruct t as [|c t]; simpl truthy; cbv iota; by repeat case_bool_decide.
Qed.

Lemma lower_empty (rt : Runtime) : lower rt [] = [].
Proof. by rewrite lower_ascii. Qed.

Lemma lower_ascii_text (rt : Runtime) (s : pystr) :
  forallb (fun c => (c <? 128)%N) s = true -> lower rt s = map ascii_lower s.
Proof.
  intros H. apply lower_ascii, Forall_forall. intros c Hc.
  rewrite forallb_forall in H. apply N.ltb_lt, H. by apply list_elem_of_In.
Qed.

Lemma normalize_sentiment_falsy (rt : Runtime) (s : pyval) :
  truthy s = false -> _normalize_sentiment rt s = Ok (lit "mixed").
Proof.
  intros H. unfold _normalize_sentiment. rewrite H.
  change (strip []) with (@nil N). rewrite lower_empty. done.
Qed.

Lemma normalize_sentiment_values (rt : Runtime) (s : pyval) r :
  _normalize_sentiment rt s = Ok r -> r ∈ sentiments.
Proof.
  unfold _normalize_sentiment, sentiments.
  destruct (if truthy s then s else PStr []); try done.
  repeat case_bool_decide; intros [= <-];
    repeat first [apply list_elem_of_here | apply list_elem_of_further].
Qed.

(** No token is both positive and negative. *)
Lemma tokens_disjoint (key : pystr) :
  key ∈ negative_tokens -> key ∉ positive_tokens.
Proof.
  unfold negative_tokens, positive_tokens. intros Hn Hp.
  repeat (apply elem_of_cons in Hn as [->|Hn]);
    try (by apply elem_of_nil in Hn);
    repeat (apply elem_of_cons in Hp as [Hp|Hp]; [discriminate Hp|]);
    by apply elem_of_nil in Hp.
Qed.

Lemma normalize_sentiment_defined (rt : Runtime) (s : pyval) :
  sentiment_input s -> exists r, _normalize_sentiment rt s = Ok r.
Proof.
  intros [H|[t ->]].
  - rewrite normalize_sentiment_falsy by done. eauto.
  - rewrite normalize_sentiment_str. eauto.
Qed.

Lemma normalize_sentiment_raises (rt : Runtime) (s : pyval) :
  ~ sentiment_input s ->
  _normalize_sentiment rt s = Raise (AttributeError s "strip").
Proof.
  intros Hs. unfold _normalize_sentiment.
  destruct (truthy s) eqn:Ht; [|by destruct Hs; left].
  destruct s; try reflexivity.
  destruct Hs. right. by eexists.
Qed.

(** C5, amended. On [None], on any other falsy value and on every [str],
    [_normalize_sentiment] does not raise and returns one of "pos", "neg",
    "mixed": "pos" when the stripped, lowercased string is a positive
    token, "neg" when it is a negative token, "mixed" otherwise and on
    every falsy value; "pos", "neg" and "mixed" are returned as they are.
    On every other input, that is on every truthy value that is not a
    [str], it raises [AttributeError]. *)
Theorem normalize_sentiment_total (rt : Runtime) (s : pyval) :
  (sentiment_input s ->
   exists r,
     _normalize_sentiment rt s = Ok r
     /\ r ∈ sentiments
     /\ (forall t, s = PStr t -> lower rt (strip t) ∈ positive_tokens ->
                   r = lit "pos")
     /\ (forall t, s = PStr t -> lower rt (strip t) ∈ negative_tokens ->
                   r = lit "neg")
     /\ (forall t, s = PStr t -> lower rt (strip t) ∉ positive_tokens ->
                   lower rt (strip t) ∉ negative_tokens -> r = lit "mixed")
     /\ (truthy s = false -> r = lit "mixed")
     /\ (forall r0, r0 ∈ sentiments -> s = PStr r0 -> r = r0))
  /\ (~ sentiment_input s ->
      _normalize_sentiment rt s
      = Raise (Exn "AttributeError"
                   (lit ("'" ++ type_name s
                         ++ "' object has no attribute 'strip'")))).
Proof.
  split; [|exact (normalize_sentiment_raises rt s)].
  intros Hs. destruct (normalize_sentiment_defined rt s Hs) as [r Hr].
  exists r. split; [done|]. split; [by eapply normalize_sentiment_values|].
  repeat split.
  - intros t -> Hp. rewrite normalize_sentiment_str in Hr.
    rewrite bool_decide_eq_true_2 in Hr by done. congruence.
  - intros t -> Hn. rewrite normalize_sentiment_str in Hr.
    rewrite bool_decide_eq_false_2 in Hr by by apply tokens_disjoint.
    rewrite bool_decide_eq_true_2 in Hr by done. congruence.
  - intros t -> Hp Hn. rewrite normalize_sentiment_str in Hr.
    rewrite !bool_decide_eq_false_2 in Hr by done. congruence.
  - intros Hf. rewrite normalize_sentiment_falsy in Hr by done. congruence.
  - intros r0 Hr0 ->. rewrite normalize_sentiment_str in Hr.
    unfold sentiments in Hr0.
    repeat (apply elem_of_cons in Hr0 as [->|Hr0]);
      try (by apply elem_of_nil in Hr0);
      (rewrite lower_ascii_text in Hr by done);
      vm_compute in Hr; by injection Hr as <-.
Qed.

(** ** One attempt of [summarise] *)

Section SummariseFacts.

Context (rt : Runtime).
Variable review_text : pystr.
Variable retries : Z.
Variable backoff : Q.
Variables accept_min accept_max extreme_min extreme_max : Z.

Local Abbreviation attempt :=
  (attempt_body rt review_text accept_min accept_max extreme_min extreme_max).
Local Abbreviation loop :=
  (summarise_loop rt review_text retries backoff
                  accept_min accept_max extreme_min extreme_max).
Local Abbreviation primary := (primary_at rt review_text).
Local Abbreviation kept := (kept_tldr rt review_text accept_min accept_max).
Local Abbreviation p_req := (primary_request review_text).
Local Abbreviation r_req := (repair_request review_text accept_min accept_max).
Local Abbreviation failed := (retry_trace review_text backoff).

(** [_ask_gemini] logs its request and answers by its rank. *)
Lemma ask_gemini_run (extra : pystr) (tr : trace) :
  _ask_gemini rt review_text extra tr
  = (ask_at rt (length (prompts tr)) review_text extra,
     tr ++ [EvGenerate (prompt_of review_text extra)]).
Proof.
  unfold _ask_gemini, ask_at, bind, generate, lift.
  by destruct (generate_content rt _ _).
Qed.

(** The inner [try] never raises and makes one request. *)
Lemma repair_run (tldr : pystr) (tr : trace) :
  exists wc',
    repair rt review_text accept_min accept_max tldr (_count_words tldr) tr
    = (Ok (kept (length (prompts tr)) tldr, wc'), tr ++ [r_req]).
Proof.
  unfold repair, try_except, bind, kept_tldr, repair_at.
  rewrite ask_gemini_run.
  destruct (ask_at rt _ _ _) as [data2|e]; simpl; [|by eauto].
  destruct (get_method data2 _ _) as [v2|e]; simpl; [|by eauto].
  destruct (_ <? _); simpl; eauto.
Qed.

(** One attempt, by the rank of its primary request. *)
Lemma attempt_body_run (tr : trace) :
  attempt tr =
    match primary (length (prompts tr)) with
    | Raise e => (Raise e, tr ++ [p_req])
    | Ok (tldr, sentiment) =>
        if (_count_words tldr <? extreme_min) || (_count_words tldr >? extreme_max)
        then (Ok (summary sentiment (kept (S (length (prompts tr))) tldr)),
              tr ++ [p_req; r_req])
        else (Ok (summary sentiment tldr), tr ++ [p_req])
    end.
Proof.
  unfold attempt_body, primary_at, primary_fields, primary_request.
  unfold bind at 1. rewrite ask_gemini_run.
  destruct (ask_at rt _ _ _) as [data|e]; [|done].
  unfold bind at 1, lift at 1.
  destruct (get_method data (lit "tldr") _) as [v|e]; [|done].
  unfold bind at 1, lift at 1.
  destruct (get_method data (lit "sentiment") _) as [s|e]; [|done].
  unfold bind at 1, lift at 1.
  destruct (_normalize_sentiment rt s) as [sentiment|e]; [|done].
  unfold bind at 1.
  destruct (_ || _); [|done].
  destruct (repair_run (strip (py_str rt v))
              (tr ++ [EvGenerate (prompt_of review_text [])])) as (wc' & ->).
  unfold ret. simpl fst.
  rewrite requests_snoc_generate, <- app_assoc. done.
Qed.

(** ** The retry loop *)

Lemma backoff_nonneg (a : Z) :
  (0 <= backoff)%Q -> Qle_bool 0 (backoff * inject_Z (2 ^ a)) = true.
Proof.
  intros Hb. apply Qle_bool_iff, Qmult_le_0_compat; [done|].
  unfold Qle. simpl. pose proof (Z.pow_nonneg 2 a). lia.
Qed.

(** A failed attempt that is not the last one: its request, the sleep, and
    the next iteration. *)
Lemma loop_failed_attempt (n : nat) (a : Z) last (tr : trace) e :
  (0 <= backoff)%Q ->
  a < retries ->
  primary (length (prompts tr)) = Raise e ->
  loop (S n) a last tr
  = loop n (a + 1) (Some e)
         (tr ++ [p_req; EvSleep (backoff * inject_Z (2 ^ a))]).
Proof.
  intros Hb Ha He. simpl. unfold try_except.
  rewrite attempt_body_run, He.
  apply Z.ltb_lt in Ha. rewrite Ha.
  unfold bind, sleep. rewrite backoff_nonneg by done.
  by rewrite <- app_assoc.
Qed.

(** [k] failed attempts in a row, from attempt number [a]. *)
Lemma loop_failed_attempts (k : nat) :
  forall (n a : nat) last last' (tr : trace),
    (0 <= backoff)%Q ->
    Z.of_nat (a + k) <= retries ->
    (forall i, (i < k)%nat ->
               exists e, primary (length (prompts tr) + i) = Raise e) ->
    loop (k + S n) (Z.of_nat a) last tr
    = loop (S n) (Z.of_nat (a + k)) last'
           (tr ++ flat_map
                    (fun i => [p_req;
                               EvSleep (backoff * inject_Z (2 ^ Z.of_nat i))])
                    (seq a k)).
Proof.
  induction k as [|k IH]; intros n a last last' tr Hb Hk Hfail.
  - simpl flat_map. rewrite app_nil_r, Nat.add_0_r. done.
  - destruct (Hfail 0%nat) as [e He]; [lia|]. rewrite Nat.add_0_r in He.
    change (S k + S n)%nat with (S (k + S n)).
    rewrite (loop_failed_attempt _ _ _ _ e) by (done || lia).
    replace (Z.of_nat a + 1) with (Z.of_nat (S a)) by lia.
    rewrite (IH n (S a) _ last') ; [|done|lia|].
    + replace (S a + k)%nat with (a + S k)%nat by lia.
      simpl flat_map. by rewrite <- app_assoc.
    + intros i Hi. destruct (Hfail (S i)) as [e' He']; [lia|].
      exists e'. rewrite <- He'. f_equal.
      rewrite prompts_app, length_app. simpl. lia.
Qed.

(** After [k] failed attempts, [k] within the budget, [summarise] is at
    its attempt number [k], with [retry_trace k] added to the trace. *)
Lemma summarise_failed_attempts (k : nat) (tr : trace) :
  (0 <= backoff)%Q ->
  Z.of_nat k <= retries ->
  (forall i, (i < k)%nat ->
             exists e, primary (length (prompts tr) + i) = Raise e) ->
  summarise rt review_text retries backoff
            accept_min accept_max extreme_min extreme_max tr
  = loop (S (Z.to_nat retries - k)) (Z.of_nat k) None (tr ++ failed k).
Proof.
  intros Hb Hk Hfail. unfold summarise.
  replace (Z.to_nat (retries + 1)) with (k + S (Z.to_nat retries - k))%nat by lia.
  by rewrite (loop_failed_attempts k _ 0%nat None None tr).
Qed.

(** The attempt number [k] decides, if it succeeds. *)
Lemma summarise_success (k : nat) (tr tr' : trace) v :
  (0 <= backoff)%Q ->
  Z.of_nat k <= retries ->
  (forall i, (i < k)%nat ->
             exists e, primary (length (prompts tr) + i) = Raise e) ->
  attempt (tr ++ failed k) = (Ok v, tr') ->
  summarise rt review_text retries backoff
            accept_min accept_max extreme_min extreme_max tr
  = (Ok v, tr').
Proof.
  intros Hb Hk Hfail Hok.
  rewrite (summarise_failed_attempts k) by done.
  simpl. unfold try_except. by rewrite Hok.
Qed.

Lemma prompts_retry_trace (k : nat) :
  length (prompts (failed k)) = k.
Proof.
  unfold retry_trace. generalize 0%nat.
  induction k as [|k IH]; intros a; simpl; [done|]. by rewrite IH.
Qed.

Lemma sleeps_retry_trace (k : nat) :
  sleeps (failed k)
  = map (fun i => (backoff * inject_Z (2 ^ Z.of_nat i))%Q) (seq 0 k).
Proof.
  unfold retry_trace. generalize 0%nat.
  induction k as [|k IH]; intros a; simpl; [done|]. by rewrite IH.
Qed.

Lemma requests_after_failures (k : nat) (tr : trace) :
  length (prompts (tr ++ failed k)) = (length (prompts tr) + k)%nat.
Proof. by rewrite prompts_app, length_app, prompts_retry_trace. Qed.

(** The attempt number [k], told by the rank of its primary request. *)
Lemma attempt_after_failures (k : nat) (tr : trace) :
  attempt (tr ++ failed k) =
    match primary (length (prompts tr) + k) with
    | Raise e => (Raise e, tr ++ failed k ++ [p_req])
    | Ok (tldr, sentiment) =>
        if (_count_words tldr <? extreme_min) || (_count_words tldr >? extreme_max)
        then (Ok (summary sentiment (kept (S (length (prompts tr) + k)) tldr)),
              tr ++ failed k ++ [p_req; r_req])
        else (Ok (summary sentiment tldr), tr ++ failed k ++ [p_req])
    end.
Proof.
  rewrite attempt_body_run, requests_after_failures.
  destruct (primary _) as [[tldr sentiment]|e]; [|by rewrite <- app_assoc].
  destruct (_ || _); by rewrite <- app_assoc.
Qed.

Lemma far_iff (wc : Z) :
  (wc <? extreme_min) || (wc >? extreme_max) = true
  <-> wc < extreme_min \/ extreme_max < wc.
Proof. rewrite orb_true_iff, Z.ltb_lt, Z.gtb_ltb, Z.ltb_lt. done. Qed.

(** An attempt whose word count is within the extremes, bounds included,
    returns after its primary request. *)
Lemma summarise_within_extremes (k : nat) (tr : trace) tldr sentiment :
  (0 <= backoff)%Q ->
  Z.of_nat k <= retries ->
  (forall i, (i < k)%nat ->
             exists e, primary (length (prompts tr) + i) = Raise e) ->
  primary (length (prompts tr) + k) = Ok (tldr, sentiment) ->
  extreme_min <= _count_words tldr <= extreme_max ->
  summarise rt review_text retries backoff
            accept_min accept_max extreme_min extreme_max tr
  = (Ok (summary sentiment tldr), tr ++ failed k ++ [p_req]).
Proof.
  intros Hb Hk Hfail Hp Hwc.
  apply (summarise_success k); [done..|].
  rewrite attempt_after_failures, Hp.
  destruct (_ || _) eqn:E; [|done]. apply far_iff in E. lia.
Qed.

(** An attempt whose word count is beyond the extremes returns after its
    repair request, with the [tldr] kept by the inner [try]. *)
Lemma summarise_beyond_extremes (k : nat) (tr : trace) tldr sentiment :
  (0 <= backoff)%Q ->
  Z.of_nat k <= retries ->
  (forall i, (i < k)%nat ->
             exists e, primary (length (prompts tr) + i) = Raise e) ->
  primary (length (prompts tr) + k) = Ok (tldr, sentiment) ->
  _count_words tldr < extreme_min \/ extreme_max < _count_words tldr ->
  summarise rt review_text retries backoff
            accept_min accept_max extreme_min extreme_max tr
  = (Ok (summary sentiment (kept (S (length (prompts tr) + k)) tldr)),
     tr ++ failed k ++ [p_req; r_req]).
Proof.
  intros Hb Hk Hfail Hp Hwc.
  apply (summarise_success k); [done..|].
  rewrite attempt_after_failures, Hp.
  apply far_iff in Hwc. by rewrite Hwc.
Qed.

(** The [tldr] of a successful primary sequence is stripped. *)
Lemma primary_stripped (n : nat) tldr sentiment :
  primary n = Ok (tldr, sentiment) -> exists raw, tldr = strip raw.
Proof.
  unfold primary_at, primary_fields.
  destruct (ask_at _ _ _ _) as [data|]; [|done].
  destruct (get_method data (lit "tldr") _) as [v|]; [|done].
  destruct (get_method data (lit "sentiment") _) as [s|]; [|done].
  destruct (_normalize_sentiment rt s); [|done].
  intros [= <- _]. eauto.
Qed.

(** ** The claims on [summarise] *)

(** C1. Take the primary response of any attempt: the [k] attempts before
    it have failed, [k] is within the retry budget, and lines 107-109 go
    through on it, giving [tldr] and [sentiment].  If the word count of
    [tldr] is below [extreme_min] or above [extreme_max], [summarise] sends
    exactly one repair request after the primary one and returns.  When
    the repair request yields a tldr, that tldr is returned if its word
    count is strictly closer to 10 than the original's, and the original
    one is returned if it is not; the sentiment returned is the one
    normalized from the primary response. *)
Theorem summarise_repairs_once_when_far (k : nat) (tr : trace) tldr sentiment :
  (0 <= backoff)%Q ->
  Z.of_nat k <= retries ->
  (forall i, (i < k)%nat ->
             exists e, primary (length (prompts tr) + i) = Raise e) ->
  primary (length (prompts tr) + k) = Ok (tldr, sentiment) ->
  _count_words tldr < extreme_min \/ extreme_max < _count_words tldr ->
  exists final,
    summarise rt review_text retries backoff
              accept_min accept_max extreme_min extreme_max tr
    = (Ok (summary sentiment final), tr ++ failed k ++ [p_req; r_req])
    /\ match repair_at rt review_text accept_min accept_max
                       (S (length (prompts tr) + k)) with
       | Ok tldr2 =>
           (Z.abs (_count_words tldr2 - 10) < Z.abs (_count_words tldr - 10)
            -> final = tldr2)
           /\ (Z.abs (_count_words tldr - 10) <= Z.abs (_count_words tldr2 - 10)
               -> final = tldr)
       | Raise _ => final = tldr
       end.
Proof.
  intros Hb Hk Hfail Hp Hwc.
  eexists. split; [by apply summarise_beyond_extremes|].
  unfold kept_tldr. destruct (repair_at _ _ _ _ _) as [tldr2|e]; [|done].
  destruct (_ <? _) eqn:E.
  - apply Z.ltb_lt in E. split; [done|lia].
  - apply Z.ltb_ge in E. split; [lia|done].
Qed.

(** C2. Take the primary response of any attempt, as in C1.  If the word
    count of its tldr is strictly between [extreme_min] and [extreme_max]
    but outside [accept_min, accept_max], [summarise] returns the original
    tldr, and the primary request is the last request made: there is no
    repair request. *)
Theorem summarise_keeps_near_miss (k : nat) (tr : trace) tldr sentiment :
  (0 <= backoff)%Q ->
  Z.of_nat k <= retries ->
  (forall i, (i < k)%nat ->
             exists e, primary (length (prompts tr) + i) = Raise e) ->
  primary (length (prompts tr) + k) = Ok (tldr, sentiment) ->
  extreme_min < _count_words tldr < extreme_max ->
  _count_words tldr < accept_min \/ accept_max < _count_words tldr ->
  summarise rt review_text retries backoff
            accept_min accept_max extreme_min extreme_max tr
  = (Ok (summary sentiment tldr), tr ++ failed k ++ [p_req]).
Proof.
  intros Hb Hk Hfail Hp Hwc _.
  apply summarise_within_extremes; [done..|lia].
Qed.

(** C4. Take the primary response of any attempt, as in C1, with a word
    count beyond the extremes.  If the repair fails (the request, the
    parsing of its response, or the reading of its tldr raises), then
    [summarise] raises nothing and returns the original tldr; the repair
    request is the last event of the trace: it is not tried again, and no
    sleep follows it. *)
Theorem summarise_swallows_repair_failure
    (k : nat) (tr : trace) tldr sentiment e :
  (0 <= backoff)%Q ->
  Z.of_nat k <= retries ->
  (forall i, (i < k)%nat ->
             exists e, primary (length (prompts tr) + i) = Raise e) ->
  primary (length (prompts tr) + k) = Ok (tldr, sentiment) ->
  _count_words tldr < extreme_min \/ extreme_max < _count_words tldr ->
  repair_at rt review_text accept_min accept_max
            (S (length (prompts tr) + k)) = Raise e ->
  summarise rt review_text retries backoff
            accept_min accept_max extreme_min extreme_max tr
  = (Ok (summary sentiment tldr), tr ++ failed k ++ [p_req; r_req]).
Proof.
  intros Hb Hk Hfail Hp Hwc Hr.
  rewrite (summarise_beyond_extremes k tr tldr sentiment) by done.
  unfold kept_tldr. by rewrite Hr.
Qed.

(** C6. Take the primary response of any attempt, as in C1, and let 0 lie
    outside the extremes (as with the defaults).  If its tldr has no word
    (it is then the empty string), [summarise] sends its one repair
    request; if the repaired tldr has no word either, the empty string is
    returned, after that single repair request. *)
Theorem summarise_empty_tldr (k : nat) (tr : trace) tldr sentiment :
  (0 <= backoff)%Q ->
  Z.of_nat k <= retries ->
  (forall i, (i < k)%nat ->
             exists e, primary (length (prompts tr) + i) = Raise e) ->
  primary (length (prompts tr) + k) = Ok (tldr, sentiment) ->
  _count_words tldr = 0 ->
  0 < extreme_min \/ extreme_max < 0 ->
  tldr = []
  /\ exists final,
      summarise rt review_text retries backoff
                accept_min accept_max extreme_min extreme_max tr
      = (Ok (summary sentiment final), tr ++ failed k ++ [p_req; r_req])
      /\ forall tldr2,
          repair_at rt review_text accept_min accept_max
                    (S (length (prompts tr) + k)) = Ok tldr2 ->
          _count_words tldr2 = 0 ->
          final = [].
Proof.
  intros Hb Hk Hfail Hp Hwc H0.
  assert (tldr = []) as Hnil.
  { destruct (primary_stripped _ _ _ Hp) as [raw ->].
    by apply count_words_zero. }
  split; [done|]. eexists. split.
  - apply summarise_beyond_extremes; [done..|lia].
  - intros tldr2 Hr H2. unfold kept_tldr. rewrite Hr, Hwc, H2. by simpl.
Qed.

Lemma summarise_first_attempt (tr tr' : trace) v :
  0 <= retries ->
  attempt tr = (Ok v, tr') ->
  summarise rt review_text retries backoff
            accept_min accept_max extreme_min extreme_max tr
  = (Ok v, tr').
Proof.
  intros Hr Hok. unfold summarise.
  replace (Z.to_nat (retries + 1)) with (S (Z.to_nat retries)) by lia.
  simpl. unfold try_except. by rewrite Hok.
Qed.

Lemma sleeps_requests (tr : trace) (evs : list event) :
  sleeps evs = [] -> sleeps (tr ++ evs) = sleeps tr.
Proof. intros H. by rewrite sleeps_app, H, app_nil_r. Qed.

(** C3. With a budget [retries >= 0] and a delay [backoff >= 0]:
    - if the first [k] attempts fail ([k <= retries]) and the primary
      call-and-parse sequence of attempt number [k] succeeds, [summarise]
      returns what that attempt returns, and the sleeps it has made are
      [backoff * 2^0, ..., backoff * 2^(k-1)], one after each failure;
    - if all [retries + 1] attempts fail, [summarise] raises the error of
      the last attempt, after [retries] such sleeps and [retries + 1]
      primary requests. *)
Theorem summarise_retry_policy (tr : trace) :
  (0 <= backoff)%Q ->
  0 <= retries ->
  (forall (k : nat) tldr sentiment,
      Z.of_nat k <= retries ->
      (forall i, (i < k)%nat ->
                 exists e, primary (length (prompts tr) + i) = Raise e) ->
      primary (length (prompts tr) + k) = Ok (tldr, sentiment) ->
      exists v tr',
        attempt (tr ++ failed k) = (Ok v, tr')
        /\ summarise rt review_text retries backoff
                     accept_min accept_max extreme_min extreme_max tr
           = (Ok v, tr')
        /\ sleeps tr'
           = sleeps tr
             ++ map (fun i => (backoff * inject_Z (2 ^ Z.of_nat i))%Q) (seq 0 k))
  /\ (forall e,
      (forall i, (i < Z.to_nat retries)%nat ->
                 exists e', primary (length (prompts tr) + i) = Raise e') ->
      primary (length (prompts tr) + Z.to_nat retries) = Raise e ->
      summarise rt review_text retries backoff
                accept_min accept_max extreme_min extreme_max tr
      = (Raise e, tr ++ failed (Z.to_nat retries) ++ [p_req])
      /\ sleeps (tr ++ failed (Z.to_nat retries) ++ [p_req])
         = sleeps tr
           ++ map (fun i => (backoff * inject_Z (2 ^ Z.of_nat i))%Q)
                  (seq 0 (Z.to_nat retries))).
Proof.
  intros Hb Hr. split.
  - intros k tldr sentiment Hk Hfail Hp.
    pose proof (attempt_after_failures k tr) as Ha. rewrite Hp in Ha.
    destruct (_ || _); do 2 eexists; (split; [exact Ha|]);
      (split; [by apply (summarise_success k)|]);
      by rewrite !sleeps_app, sleeps_retry_trace, app_nil_r.
  - intros e Hfail He. split.
    + rewrite (summarise_failed_attempts (Z.to_nat retries)) by (done || lia).
      rewrite Nat.sub_diag. simpl. unfold try_except.
      rewrite attempt_after_failures, He.
      rewrite Z2Nat.id by done. by rewrite Z.ltb_irrefl.
    + by rewrite !sleeps_app, sleeps_retry_trace, app_nil_r.
Qed.

(** C10, amended. When [retries >= 0] and the first primary response
    parses to a JSON object whose "sentiment" is absent, falsy or a string,
    [summarise] returns a record [{sentiment, tldr}] with a sentiment among
    "pos", "neg", "mixed", without raising and without any sleep. *)
Theorem summarise_object_response (tr : trace) d :
  0 <= retries ->
  ask_at rt (length (prompts tr)) review_text [] = Ok (PDict d) ->
  sentiment_input (default PNone (dict_get d (lit "sentiment"))) ->
  exists sentiment tldr tr',
    summarise rt review_text retries backoff
              accept_min accept_max extreme_min extreme_max tr
    = (Ok (summary sentiment tldr), tr')
    /\ sentiment ∈ sentiments
    /\ sleeps tr' = sleeps tr.
Proof.
  intros Hr Hd Hs.
  destruct (normalize_sentiment_defined rt _ Hs) as [sentiment Hn].
  pose proof (normalize_sentiment_values _ _ _ Hn) as Hv.
  pose proof (attempt_body_run tr) as Ha.
  unfold primary_at, primary_fields in Ha. rewrite Hd in Ha.
  unfold get_method in Ha. rewrite Hn in Ha.
  destruct (_ || _); do 3 eexists;
    (split; [by apply summarise_first_attempt|]); (split; [done|]);
    by apply sleeps_requests.
Qed.

End SummariseFacts.

(** ** The review loop *)

Section MainFacts.

Context (rt : Runtime).
Variable no_cache : bool.

Local Abbreviation body := (review_body rt no_cache).
Local Abbreviation step := (process_review rt no_cache).

Lemma rbind_ok {A} (r : result A) : rbind r Ok = r.
Proof. by destruct r. Qed.

Lemma initial_state_wf (loaded : pyval) :
  cache_wf (initial_state no_cache loaded).
Proof.
  intros key l. unfold initial_state.
  destruct (if no_cache then PDict [] else loaded) as [| | | | | |entries];
    simpl; try (by rewrite lookup_empty).
  intros H. apply elem_of_list_to_map_2, elem_of_zip_r, elem_of_seq in H.
  rewrite length_fmap. lia.
Qed.

Lemma cache_getitem_entries (c : cache_value) key l :
  cache_getitem c key = Ok l -> entries_of c !! key = Some l.
Proof.
  destruct c as [m| | | | | |]; try done. simpl.
  destruct (m !! key); [by intros [= <-]|done].
Qed.

Lemma cache_setitem_entries (c c' : cache_value) key l :
  cache_setitem c key l = Ok c' ->
  c' = CDict (<[key := l]> (entries_of c)) /\ exists m, c = CDict m.
Proof.
  destruct c as [m| | | | | |]; try done. simpl. intros [= <-]. eauto.
Qed.

Lemma cache_contains_entries (c : cache_value) key :
  (exists m, c = CDict m) ->
  cache_contains c key = Ok (bool_decide (is_Some (entries_of c !! key))).
Proof. by intros [m ->]. Qed.

(** [attach] appends one snapshot and writes to the cell [l] only. *)
Lemma attach_frame (rev : Review) (l : nat) (st : run_state) :
  (l < length (rs_heap st))%nat ->
  let st' := attach rev l st in
  (exists x, rs_snapshots st' = rs_snapshots st ++ [x]
             /\ (x < length (rs_heap st'))%nat)
  /\ (length (rs_heap st) <= length (rs_heap st'))%nat
  /\ rs_cache st' = rs_cache st
  /\ (forall l', l' <> l -> (l' < length (rs_heap st))%nat ->
                 rs_heap st' !! l' = rs_heap st !! l').
Proof.
  intros Hl. unfold attach.
  destruct (lookup_lt_is_Some_2 _ _ Hl) as [s ->].
  destruct (setitem s _ _) as [s1|e]; [destruct (setitem s1 _ _) as [s2|e]|];
    simpl; rewrite ?length_app, ?length_insert; simpl;
    (split; [eexists; split; [done|lia]|]); (split; [lia|]); (split; [done|]);
    intros l' Hne Hl'.
  - by apply list_lookup_insert_ne.
  - rewrite lookup_app_l by by rewrite length_insert.
    by apply list_lookup_insert_ne.
  - by apply lookup_app_l.
Qed.

(** The handler appends one cell and one snapshot, whatever the [try]
    block had allocated before it failed. *)
Lemma on_error_extends (st0 st : run_state) (rev : Review) e ext :
  cache_wf st0 ->
  rs_heap st = rs_heap st0 ++ ext ->
  rs_cache st = rs_cache st0 ->
  rs_snapshots st = rs_snapshots st0 ->
  extends st0 (on_error rev e st).
Proof.
  intros Hwf Hh Hc Hs. unfold extends, on_error. simpl.
  rewrite Hh, Hc, Hs, !length_app. simpl.
  split; [eexists; split; [done|lia]|]. split; [lia|]. split.
  - intros key l H. split; [|done]. apply Hwf in H. lia.
  - intros l [Hl _]. rewrite <- app_assoc. by apply lookup_app_l.
Qed.

Lemma review_body_extends (key : pystr) (st : run_state) (rev : Review) :
  cache_wf st -> extends st (body key st rev).
Proof.
  intros Hwf. unfold review_body.
  destruct (if no_cache then Ok false else _) as [[|]|e] eqn:Hc.
  - destruct (cache_getitem _ _) as [l|e] eqn:Hg.
    + apply cache_getitem_entries in Hg.
      destruct (attach_frame rev l st) as (Hs & Hh & Hca & Hfr);
        [by eapply Hwf|].
      split; [done|]. split; [done|]. split.
      * intros k l0. rewrite Hca. intros H. split; [|done].
        apply Hwf in H. lia.
      * intros l' [Hl' Hp]. apply Hfr; [|done]. intros ->. by eapply Hp.
    + by apply (on_error_extends st st rev e []); rewrite ?app_nil_r.
  - destruct (summarise_default rt _ _) as [[s|e] tr].
    + destruct (if no_cache then Ok (rs_cache st) else _) as [c|e] eqn:Hset.
      * set (st1 := {| rs_trace := tr;
                       rs_heap := rs_heap st ++ [s];
                       rs_cache := c;
                       rs_snapshots := rs_snapshots st |}).
        destruct (attach_frame rev (length (rs_heap st)) st1)
          as (Hs & Hh & Hca & Hfr).
        { unfold st1. simpl. rewrite length_app. simpl. lia. }
        change (rs_snapshots st1) with (rs_snapshots st) in Hs.
        change (rs_heap st1) with (rs_heap st ++ [s]) in Hh, Hfr.
        change (rs_cache st1) with c in Hca.
        rewrite length_app in Hh, Hfr. simpl in Hh, Hfr.
        split; [done|]. split; [lia|]. split.
        -- intros k l. rewrite Hca.
           assert (entries_of c = entries_of (rs_cache st)
                   \/ entries_of c
                      = <[key := length (rs_heap st)]> (entries_of (rs_cache st)))
             as [-> | ->].
           { destruct no_cache; [left; congruence|right].
             by apply cache_setitem_entries in Hset as [-> _]. }
           ++ intros H. split; [|done]. apply Hwf in H. lia.
           ++ destruct (decide (key = k)) as [->|Hne].
              { rewrite lookup_insert_eq. intros [= <-]. lia. }
              rewrite lookup_insert_ne by done. intros H. split; [|done].
              apply Hwf in H. lia.
        -- intros l' [Hl' _]. rewrite Hfr by lia. by apply lookup_app_l.
      * by apply (on_error_extends st
                    {| rs_trace := tr; rs_heap := rs_heap st ++ [s];
                       rs_cache := rs_cache st;
                       rs_snapshots := rs_snapshots st |} rev e [s]).
    + by apply (on_error_extends st
                  {| rs_trace := tr; rs_heap := rs_heap st;
                     rs_cache := rs_cache st;
                     rs_snapshots := rs_snapshots st |} rev e []);
        simpl; rewrite ?app_nil_r.
  - by apply (on_error_extends st st rev e []); rewrite ?app_nil_r.
Qed.

(** An iteration ends in a state when, and only when, the text can be
    hashed; the state is then that of the [try] statement. *)
Lemma process_review_ok (st st' : run_state) (rev : Review) :
  step st rev = Ok st' <->
  exists key, _hash_text rt (text rev) = Ok key /\ st' = body key st rev.
Proof.
  unfold process_review. destruct (_hash_text rt (text rev)) as [key|e]; simpl.
  - split; [intros [= <-]; eauto|]. by intros (k & [= <-] & ->).
  - split; [done|]. by intros (k & ? & _).
Qed.

Lemma process_review_extends (st st' : run_state) (rev : Review) :
  cache_wf st -> step st rev = Ok st' -> extends st st'.
Proof.
  intros Hwf (key & _ & ->)%process_review_ok. by apply review_body_extends.
Qed.

Lemma extends_wf (st st' : run_state) :
  extends st st' -> cache_wf st'.
Proof. intros (_ & _ & Hc & _) key l H. by apply Hc in H as [? _]. Qed.

Lemma extends_private (st st' : run_state) l :
  extends st st' -> private l st -> private l st'.
Proof.
  intros (_ & Hh & Hc & _) [Hl Hp]. split; [lia|].
  intros key l' H ->. apply Hc in H as [_ H].
  by apply (Hp key l (H Hl)).
Qed.

(** When every text can be hashed the loop ends, and it keeps what it
    finds: the snapshots already appended stay at their rank, and a
    private cell keeps its value. *)
Lemma run_loop_keeps (reviews : list Review) :
  forall st : run_state,
    cache_wf st ->
    Forall (hashable rt) reviews ->
    exists fin,
      run_loop rt no_cache st reviews = Ok fin
      /\ length (rs_snapshots fin)
         = (length (rs_snapshots st) + length reviews)%nat
      /\ (forall i x, rs_snapshots st !! i = Some x ->
            rs_snapshots fin !! i = Some x)
      /\ (forall l, private l st -> rs_heap fin !! l = rs_heap st !! l)
      /\ cache_wf fin.
Proof.
  induction reviews as [|rev reviews IH]; intros st Hwf Hrs; simpl.
  { exists st. repeat split; (done || lia). }
  apply Forall_cons in Hrs as [[key Hkey] Hrs].
  unfold process_review. rewrite Hkey. simpl.
  pose proof (review_body_extends key st rev Hwf) as Hext.
  destruct (IH (body key st rev) (extends_wf _ _ Hext) Hrs)
    as (fin & Hfin & Hlen & Hsn & Hpr & Hwf').
  exists fin. split; [done|].
  destruct Hext as ((x & Hx & Hxl) & Hh & Hc & Hfr) eqn:E. clear E.
  repeat split.
  - rewrite Hlen, Hx, length_app. simpl. lia.
  - intros i y Hy. apply Hsn. rewrite Hx. by apply lookup_app_l_Some.
  - intros l Hl. rewrite Hpr; [by apply Hfr|].
    eapply extends_private; [|done].
    split; [eauto|]. split; [done|]. split; done.
  - done.
Qed.

Lemma run_loop_app (st : run_state) (l1 l2 : list Review) :
  run_loop rt no_cache st (l1 ++ l2)
  = rbind (run_loop rt no_cache st l1)
          (fun st' => run_loop rt no_cache st' l2).
Proof.
  revert st. induction l1 as [|rev l1 IH]; intros st; simpl; [done|].
  destruct (step st rev); simpl; [apply IH|done].
Qed.

(** The run of the reviews before rank [i], and the rest of the loop. *)
Lemma run_split (loaded : pyval) (reviews : list Review) i rev :
  reviews !! i = Some rev ->
  run rt no_cache loaded reviews
  = rbind (run rt no_cache loaded (take i reviews))
          (fun st => rbind (step st rev)
                           (fun st' => run_loop rt no_cache st'
                                                (drop (S i) reviews))).
Proof.
  intros Hi. unfold run.
  rewrite <- (take_drop_middle reviews i rev Hi) at 1.
  by rewrite run_loop_app.
Qed.

Lemma run_prefix (loaded : pyval) (reviews : list Review) i :
  Forall (hashable rt) (take i reviews) ->
  exists st,
    run rt no_cache loaded (take i reviews) = Ok st
    /\ length (rs_snapshots st) = length (take i reviews)
    /\ cache_wf st.
Proof.
  intros Hrs.
  destruct (run_loop_keeps (take i reviews) _ (initial_state_wf loaded) Hrs)
    as (st & Hst & Hlen & _ & _ & Hwf).
  exists st. split; [done|]. split; [|done]. rewrite Hlen.
  unfold initial_state.
  by destruct (if no_cache then PDict [] else loaded).
Qed.

(** A review whose text is in a cache that is a [dict] costs no request. *)
Lemma review_body_cached (key : pystr) (st : run_state) (rev : Review) :
  rs_trace (body key st rev) = rs_trace st
  \/ (if no_cache then Ok false else cache_contains (rs_cache st) key)
     = Ok false.
Proof.
  unfold review_body.
  destruct (if no_cache then Ok false else _) as [[|]|e] eqn:Hc;
    [left|by right|by left].
  destruct (cache_getitem _ _) as [l|e]; [|done].
  unfold attach. destruct (rs_heap st !! l) as [s|]; [|done].
  destruct (setitem s _ _) as [s1|e]; [|done].
  by destruct (setitem s1 _ _).
Qed.


End MainFacts.

(** ** The code on concrete inputs *)

Ltac evaluate := vm_compute; reflexivity.

(** C5: a truthy value that is not a [str], such as the number 5 in
    [{"sentiment": 5}], makes [_normalize_sentiment] raise. *)
Lemma normalize_sentiment_raises_on_number :
  _normalize_sentiment (scripted []) (PInt 5)
  = Raise (Exn "AttributeError" (lit "'int' object has no attribute 'strip'")).
Proof. reflexivity. Qed.

Lemma normalize_sentiment_total_witness :
  (sentiment_input (PStr (lit " Positive "))
   /\ exists r,
       _normalize_sentiment (scripted []) (PStr (lit " Positive ")) = Ok r
       /\ r = lit "pos")
  /\ (~ sentiment_input (PList [PInt 1])
      /\ _normalize_sentiment (scripted []) (PList [PInt 1])
         = Raise (Exn "AttributeError"
                      (lit "'list' object has no attribute 'strip'"))).
Proof.
  split.
  - assert (sentiment_input (PStr (lit " Positive "))) as Hs
      by (right; eexists; reflexivity).
    split; [exact Hs|].
    destruct (normalize_sentiment_total (scripted []) (PStr (lit " Positive ")))
      as [Hok _].
    destruct (Hok Hs) as (r & Hr & _ & Hpos & _).
    exists r. split; [exact Hr|].
    apply (Hpos (lit " Positive ")); [reflexivity|].
    vm_compute. apply list_elem_of_further, list_elem_of_here.
  - assert (~ sentiment_input (PList [PInt 1])) as Hs
      by (intros [H|[t H]]; discriminate H).
    split; [exact Hs|].
    destruct (normalize_sentiment_total (scripted []) (PList [PInt 1]))
      as [_ Hraise].
    exact (Hraise Hs).
Defined.

(** C10: the first primary response parses to a JSON object, its sentiment
    is the number 5; the attempt fails, [summarise] sleeps and retries, and
    with the same response at each attempt it raises. *)
Lemma summarise_raises_on_object_response :
  (exists d,
      ask_at (scripted [numeric_sentiment; numeric_sentiment; numeric_sentiment])
             0 a_review [] = Ok (PDict d))
  /\ exists tr,
      summarise_default
        (scripted [numeric_sentiment; numeric_sentiment; numeric_sentiment])
        a_review []
      = (Raise (Exn "AttributeError"
                    (lit "'int' object has no attribute 'strip'")), tr)
      /\ sleeps tr = [4 # 5; 8 # 5]%Q.
Proof.
  split; [eexists; evaluate|].
  eexists. split; evaluate.
Qed.

Lemma summarise_object_response_witness :
  exists sentiment tldr tr',
    summarise_default (scripted [reply "good" (words 10)]) a_review []
    = (Ok (summary sentiment tldr), tr')
    /\ sentiment ∈ sentiments
    /\ sleeps tr' = [].
Proof.
  eapply (summarise_object_response
            (scripted [reply "good" (words 10)]) a_review 2 (4 # 5) 8 12 6 16 []).
  - lia.
  - evaluate.
  - right. eexists. evaluate.
Defined.

(** One time-out, then 3 words, repaired to 10 words. *)
Lemma summarise_repairs_once_when_far_witness :
  primary_at (scripted [timeout; reply "Positive" (words 3); reply "neg" (words 10)])
             a_review 1
  = Ok (lit (words 3), lit "pos")
  /\ exists final,
      summarise_default
        (scripted [timeout; reply "Positive" (words 3); reply "neg" (words 10)])
        a_review []
      = (Ok (summary (lit "pos") final),
         [] ++ retry_trace a_review (4 # 5) 1
            ++ [primary_request a_review; repair_request a_review 8 12])
      /\ final = lit (words 10).
Proof.
  split; [evaluate|].
  destruct (summarise_repairs_once_when_far
              (scripted [timeout; reply "Positive" (words 3);
                         reply "neg" (words 10)])
              a_review 2 (4 # 5) 8 12 6 16 1 [] (lit (words 3)) (lit "pos"))
    as (final & Hrun & Hfinal).
  - discriminate.
  - lia.
  - intros [|i] Hi; [eexists; evaluate|lia].
  - evaluate.
  - left. evaluate.
  - exists final. split; [exact Hrun|].
    apply Hfinal. evaluate.
Defined.

(** 7 words: inside the extremes 6 and 16, outside the band 8 to 12. *)
Lemma summarise_keeps_near_miss_witness :
  _count_words (lit (words 7)) = 7
  /\ summarise_default (scripted [reply "bad" (words 7)]) a_review []
     = (Ok (summary (lit "neg") (lit (words 7))),
        [] ++ retry_trace a_review (4 # 5) 0 ++ [primary_request a_review]).
Proof.
  split; [evaluate|].
  apply (summarise_keeps_near_miss
           (scripted [reply "bad" (words 7)])
           a_review 2 (4 # 5) 8 12 6 16 0 [] (lit (words 7)) (lit "neg")).
  - discriminate.
  - lia.
  - intros i Hi. lia.
  - evaluate.
  - split; evaluate.
  - left. evaluate.
Defined.

(** Two failures, then a success: two sleeps, of 0.8 s and 1.6 s.  Three
    failures: the third error is raised. *)
Lemma summarise_retry_policy_witness :
  (exists v tr',
      summarise_default
        (scripted [timeout; Ok (PInt 3); reply "pos" (words 10)]) a_review []
      = (Ok v, tr')
      /\ sleeps tr' = [4 # 5; 8 # 5]%Q)
  /\ summarise_default
       (scripted [timeout; timeout; Ok (PInt 3)]) a_review []
     = (Raise (Exn "AttributeError" (lit "'int' object has no attribute 'get'")),
        [] ++ retry_trace a_review (4 # 5) 2 ++ [primary_request a_review]).
Proof.
  split.
  - destruct (summarise_retry_policy
                (scripted [timeout; Ok (PInt 3); reply "pos" (words 10)])
                a_review 2 (4 # 5) 8 12 6 16 []) as [Hok _];
      [discriminate|lia|].
    destruct (Hok 2%nat (lit (words 10)) (lit "pos")) as (v & tr' & _ & Hrun & Hs).
    + lia.
    + intros [|[|i]] Hi; [eexists; evaluate..|lia].
    + evaluate.
    + exists v, tr'. split; [exact Hrun|]. rewrite Hs. reflexivity.
  - destruct (summarise_retry_policy
                (scripted [timeout; timeout; Ok (PInt 3)])
                a_review 2 (4 # 5) 8 12 6 16 []) as [_ Hfail];
      [discriminate|lia|].
    apply Hfail.
    + intros [|[|i]] Hi; [eexists; evaluate..|simpl in Hi; lia].
    + evaluate.
Defined.

(** 3 words, and a repair request that times out. *)
Lemma summarise_swallows_repair_failure_witness :
  repair_at (scripted [reply "pos" (words 3); timeout]) a_review 8 12 1
  = Raise (Exn "TimeoutError" (lit "timed out"))
  /\ summarise_default (scripted [reply "pos" (words 3); timeout]) a_review []
     = (Ok (summary (lit "pos") (lit (words 3))),
        [] ++ retry_trace a_review (4 # 5) 0
           ++ [primary_request a_review; repair_request a_review 8 12]).
Proof.
  split; [evaluate|].
  apply (summarise_swallows_repair_failure
           (scripted [reply "pos" (words 3); timeout])
           a_review 2 (4 # 5) 8 12 6 16 0 [] (lit (words 3)) (lit "pos")
           (Exn "TimeoutError" (lit "timed out"))).
  - discriminate.
  - lia.
  - intros i Hi. lia.
  - evaluate.
  - left. evaluate.
  - evaluate.
Defined.

(** A blank tldr, repaired to another blank tldr. *)
Lemma summarise_empty_tldr_witness :
  exists final,
    summarise_default (scripted [reply "mixed" "   "; reply "mixed" ""])
                      a_review []
    = (Ok (summary (lit "mixed") final),
       [] ++ retry_trace a_review (4 # 5) 0
          ++ [primary_request a_review; repair_request a_review 8 12])
    /\ final = [].
Proof.
  destruct (summarise_empty_tldr
              (scripted [reply "mixed" "   "; reply "mixed" ""])
              a_review 2 (4 # 5) 8 12 6 16 0 [] [] (lit "mixed"))
    as (_ & final & Hrun & Hfinal).
  - discriminate.
  - lia.
  - intros i Hi. lia.
  - evaluate.
  - evaluate.
  - left. lia.
  - exists final. split; [exact Hrun|].
    apply (Hfinal []); evaluate.
Defined.

(** C9. With the default bands, a primary tldr of 30 words and a repair
    response whose tldr has 20 words: the repair is adopted, [summarise]
    returns the repaired tldr, not the primary one, with the sentiment of
    the primary response, after the two requests and without raising; the
    word count of the returned tldr lies outside [8, 12] and outside
    [6, 16]. *)
Theorem summarise_returns_unchecked_repair :
  exists (rt : Runtime) (review_text sentiment tldr1 tldr2 : pystr) (tr : trace),
    primary_at rt review_text 0 = Ok (tldr1, sentiment)
    /\ _count_words tldr1 = 30
    /\ repair_at rt review_text 8 12 1 = Ok tldr2
    /\ _count_words tldr2 = 20
    /\ tldr2 <> tldr1
    /\ kept_tldr rt review_text 8 12 1 tldr1 = tldr2
    /\ summarise_default rt review_text [] = (Ok (summary sentiment tldr2), tr)
    /\ tr = [primary_request review_text; repair_request review_text 8 12]
    /\ length (prompts tr) = 2%nat
    /\ (_count_words tldr2 < 8 \/ 12 < _count_words tldr2)
    /\ (_count_words tldr2 < 6 \/ 16 < _count_words tldr2).
Proof.
  exists (scripted [reply "pos" (words 30); reply "pos" (words 20)]),
         a_review, (lit "pos"), (lit (words 30)), (lit (words 20)).
  eexists.
  split; [evaluate|]. split; [evaluate|]. split; [evaluate|].
  split; [evaluate|]. split; [discriminate|]. split; [evaluate|].
  split; [evaluate|]. split; [evaluate|]. split; [evaluate|].
  split; right; evaluate.
Qed.

(** C8 (where the code departs from the claim). Two reviews with the same
    text, by two authors, and an empty cache: one request is made, both
    snapshots are the cached object, and that object, the value of the
    cache entry, has the keys [author] and [recommended] of the second
    review besides [sentiment] and [tldr]. *)
Theorem run_cache_entry_is_snapshot :
  let rt := scripted [reply "pos" (words 10)] in
  exists (fin : run_state) (key : pystr) (m : gmap pystr nat),
    run rt false (PDict [])
      [review_of "A" "Great" true; review_of "B" "Great" false] = Ok fin
    /\ _hash_text rt (PStr (lit "Great")) = Ok key
    /\ length (prompts (rs_trace fin)) = 1%nat
    /\ rs_cache fin = CDict m
    /\ m !! key = Some 0%nat
    /\ rs_snapshots fin = [0%nat; 0%nat]
    /\ rs_heap fin
       = [PDict [(lit "sentiment", PStr (lit "pos"));
                 (lit "tldr", PStr (lit (words 10)));
                 (lit "author", PStr (lit "B"));
                 (lit "recommended", PBool false)]].
Proof.
  intros rt. eexists. eexists. eexists.
  split; [evaluate|]. split; [evaluate|]. split; [evaluate|].
  split; [evaluate|]. repeat split; evaluate.
Qed.



(** * Further properties of the code *)

(** ** [_count_words] *)

Lemma split_on_runs (s : pystr) :
  forall w ws,
    split_on 32%N s = w :: ws ->
    length (filter (fun w => str_truthy w = true) ws) = space_runs false s
    /\ length (filter (fun w => str_truthy w = true) (w :: ws))
       = space_runs true s.
Proof.
  induction s as [|c s IH]; intros w ws; simpl.
  { intros [= <- <-]. done. }
  destruct (c =? 32)%N.
  - intros [= <- <-]. destruct (split_on_cons 32%N s) as (w' & ws' & E).
    destruct (IH _ _ E) as [_ H]. rewrite E.
    split; [done|]. rewrite filter_cons. by case_decide.
  - destruct (split_on_cons 32%N s) as (w' & ws' & E). rewrite E.
    intros [= <- <-]. destruct (IH _ _ E) as [H _].
    split; [done|]. rewrite filter_cons. case_decide; [|done].
    simpl. by rewrite H.
Qed.

Lemma pieces_space_runs (s : pystr) :
  length (filter (fun w => str_truthy w = true) (split_on 32%N s))
  = space_runs true s.
Proof.
  destruct (split_on_cons 32%N s) as (w & ws & E). rewrite E.
  by apply (split_on_runs s).
Qed.

Lemma isspace_32 (c : N) : isspace c = false -> (c =? 32)%N = false.
Proof.
  intros H. destruct (c =? 32)%N eqn:E; [|done].
  apply N.eqb_eq in E. by subst c.
Qed.

(** After [_WS_RE.sub], the runs between spaces are the visible runs. *)
Lemma ws_sub_runs (s : pystr) :
  forall b sp, (b = true -> sp = true) ->
    space_runs sp (ws_sub_from b s) = word_runs sp s.
Proof.
  induction s as [|c s IH]; intros b sp Hb; simpl; [done|].
  destruct (isspace c) eqn:Hc.
  - destruct b.
    + rewrite (Hb eq_refl). by apply IH.
    + simpl. by apply IH.
  - simpl. rewrite (isspace_32 c Hc). f_equal. by apply IH.
Qed.

Lemma word_runs_blank (s : pystr) sp :
  blank s -> word_runs sp s = 0%nat.
Proof.
  unfold blank. revert sp. induction s as [|c s IH]; intros sp; simpl; [done|].
  intros [Hc Hs]%andb_true_iff. rewrite Hc. by apply IH.
Qed.

Lemma word_runs_lstrip (s : pystr) :
  word_runs true (lstrip s) = word_runs true s.
Proof.
  induction s as [|c s IH]; simpl; [done|].
  destruct (isspace c) eqn:Hc; [done|]. simpl. by rewrite Hc.
Qed.

Lemma lstrip_app (l m : pystr) :
  lstrip (l ++ m) = if forallb isspace l then lstrip m else lstrip l ++ m.
Proof.
  induction l as [|c l IH]; simpl; [done|].
  destruct (isspace c); simpl; [done|done].
Qed.

Lemma forallb_rev (f : N -> bool) (l : pystr) :
  forallb f (rev l) = forallb f l.
Proof.
  induction l as [|c l IH]; simpl; [done|].
  rewrite forallb_app, IH. simpl. rewrite andb_true_r. apply andb_comm.
Qed.

(** [rstrip], read from the left. *)
Lemma rstrip_step (c : N) (r : pystr) :
  rstrip (c :: r) = if forallb isspace (c :: r) then [] else c :: rstrip r.
Proof.
  unfold rstrip. simpl rev. rewrite lstrip_app, forallb_rev. simpl.
  destruct (forallb isspace r) eqn:Hr.
  - rewrite andb_true_r. destruct (isspace c); simpl; [done|].
    by rewrite lstrip_whitespace by by rewrite forallb_rev.
  - rewrite andb_false_r. by rewrite rev_app_distr.
Qed.

Lemma word_runs_rstrip (s : pystr) :
  forall sp, word_runs sp (rstrip s) = word_runs sp s.
Proof.
  induction s as [|c s IH]; intros sp; [done|].
  rewrite rstrip_step. destruct (forallb isspace (c :: s)) eqn:E.
  - by rewrite (word_runs_blank (c :: s)).
  - simpl. destruct (isspace c); by rewrite IH.
Qed.

Lemma word_runs_strip (s : pystr) :
  word_runs true (strip s) = word_runs true s.
Proof. unfold strip. by rewrite word_runs_rstrip, word_runs_lstrip. Qed.

Lemma count_words_word_runs (s : pystr) :
  _count_words s = Z.of_nat (word_runs true s).
Proof.
  unfold _count_words, ws_sub. f_equal.
  rewrite pieces_space_runs, ws_sub_runs by done.
  apply word_runs_strip.
Qed.

(** X1. [_count_words(text)] is the number of maximal runs of
    non-whitespace characters of [text]: the regular expression, the
    [strip], the [split] and the filter together count what one pass over
    the text counts. *)
Theorem count_words_runs (s : pystr) :
  _count_words s = Z.of_nat (word_runs true s).
Proof. exact (count_words_word_runs s). Qed.

Lemma word_runs_zero (s : pystr) :
  word_runs true s = 0%nat -> blank s.
Proof.
  unfold blank. induction s as [|c s IH]; simpl; [done|].
  destruct (isspace c); [done|]. intros H. lia.
Qed.

(** X2. [_count_words(text)] is 0 exactly when [text] is empty or made of
    whitespace only. *)
Theorem count_words_zero_iff (s : pystr) :
  _count_words s = 0 <-> blank s.
Proof.
  rewrite count_words_word_runs. split.
  - intros H. apply word_runs_zero. lia.
  - intros H. by rewrite word_runs_blank.
Qed.

Lemma word_runs_sep (sep b : pystr) sp :
  blank sep -> sep <> [] -> word_runs sp (sep ++ b) = word_runs true b.
Proof.
  unfold blank. revert sp. induction sep as [|c sep IH]; intros sp; [done|].
  simpl. intros [Hc Hs]%andb_true_iff _. rewrite Hc.
  destruct sep as [|c' sep]; [done|]. by apply IH.
Qed.

Lemma word_runs_app_sep (a sep b : pystr) sp :
  blank sep -> sep <> [] ->
  word_runs sp (a ++ sep ++ b) = (word_runs sp a + word_runs true b)%nat.
Proof.
  intros Hs Hne. revert sp. induction a as [|c a IH]; intros sp; simpl.
  - by apply word_runs_sep.
  - destruct (isspace c); rewrite IH; lia.
Qed.

(** X3. Word counts add up across whitespace: for a non-empty run of
    whitespace [sep], the count of [a + sep + b] is the count of [a] plus
    the count of [b]. *)
Theorem count_words_app (a sep b : pystr) :
  blank sep -> sep <> [] ->
  _count_words (a ++ sep ++ b) = _count_words a + _count_words b.
Proof.
  intros Hs Hne. rewrite !count_words_word_runs, word_runs_app_sep by done. lia.
Qed.

Lemma word_runs_visible (w : pystr) :
  visible w -> word_runs true w = 1%nat.
Proof.
  intros [Hne Hv]. destruct w as [|c w]; [done|]. clear Hne.
  simpl in *. apply andb_true_iff in Hv as [Hc Hv].
  apply negb_true_iff in Hc. rewrite Hc. f_equal.
  induction w as [|c' w IH]; simpl in *; [done|].
  apply andb_true_iff in Hv as [Hc' Hv]. apply negb_true_iff in Hc'.
  rewrite Hc'. by apply IH.
Qed.

(** X4. A text made of [n] words (non-empty, without whitespace) joined by
    single spaces has [n] words for [_count_words]. *)
Theorem count_words_join (ws : list pystr) :
  Forall visible ws ->
  _count_words (join_words ws) = Z.of_nat (length ws).
Proof.
  intros H. rewrite count_words_word_runs. f_equal.
  induction H as [|w ws Hw Hws IH]; [done|].
  destruct ws as [|w' ws].
  - simpl. by apply word_runs_visible.
  - change (join_words (w :: w' :: ws))
      with (w ++ [32%N] ++ join_words (w' :: ws)).
    rewrite word_runs_app_sep by done.
    rewrite IH, word_runs_visible by done. done.
Qed.

Lemma ws_sub_word_runs (s : pystr) :
  forall b sp, (b = true -> sp = true) ->
    word_runs sp (ws_sub_from b s) = word_runs sp s.
Proof.
  induction s as [|c s IH]; intros b sp Hb; simpl; [done|].
  destruct (isspace c) eqn:Hc.
  - destruct b.
    + rewrite (Hb eq_refl). by apply IH.
    + simpl. by apply IH.
  - simpl. rewrite Hc. f_equal. by apply IH.
Qed.

(** X5. Normalizing the whitespace of a text (strip, then every run of
    whitespace replaced by one space) does not change its word count. *)
Theorem count_words_normalized (s : pystr) :
  _count_words (ws_sub (strip s)) = _count_words s.
Proof.
  rewrite !count_words_word_runs. f_equal. unfold ws_sub.
  rewrite ws_sub_word_runs by done. apply word_runs_strip.
Qed.

(** ** [_strip_code_fence] *)

Lemma lstrip_fixed (s : pystr) :
  (forall c r, s = c :: r -> isspace c = false) -> lstrip s = s.
Proof.
  destruct s as [|c r]; [done|]. intros H. simpl.
  by rewrite (H c r eq_refl).
Qed.

Lemma lstrip_idemp (s : pystr) : lstrip (lstrip s) = lstrip s.
Proof.
  apply lstrip_fixed. intros c r E. by apply lstrip_head in E.
Qed.

Lemma rstrip_idemp (s : pystr) : rstrip (rstrip s) = rstrip s.
Proof. unfold rstrip. by rewrite rev_involutive, lstrip_idemp. Qed.

Lemma strip_idemp (s : pystr) : strip (strip s) = strip s.
Proof.
  unfold strip at 1. rewrite lstrip_fixed.
  - unfold strip. apply rstrip_idemp.
  - intros c r E. by apply strip_head in E.
Qed.

(** X6. Whichever branch produces it (the fenced block, the brace-delimited
    text, or the whole response), the text returned by [_strip_code_fence]
    has no whitespace at either end: stripping it again changes nothing. *)
Theorem strip_code_fence_stripped (rt : Runtime) (s : pystr) :
  strip (_strip_code_fence rt s) = _strip_code_fence rt s.
Proof.
  unfold _strip_code_fence.
  destruct (code_fence_search rt s); [apply strip_idemp|].
  destruct (brace_search rt s); apply strip_idemp.
Qed.

(** ** [summarise]: results, cost and edge cases *)

Section SummariseMore.

Context (rt : Runtime).
Variable review_text : pystr.
Variable retries : Z.
Variable backoff : Q.
Variables accept_min accept_max extreme_min extreme_max : Z.

Local Abbreviation attempt :=
  (attempt_body rt review_text accept_min accept_max extreme_min extreme_max).
Local Abbreviation loop :=
  (summarise_loop rt review_text retries backoff
                  accept_min accept_max extreme_min extreme_max).
Local Abbreviation summ :=
  (summarise rt review_text retries backoff
             accept_min accept_max extreme_min extreme_max).
Local Abbreviation primary := (primary_at rt review_text).
Local Abbreviation kept := (kept_tldr rt review_text accept_min accept_max).
Local Abbreviation p_req := (primary_request review_text).
Local Abbreviation r_req := (repair_request review_text accept_min accept_max).
Local Abbreviation p_prompt := (prompt_of review_text []).
Local Abbreviation r_prompt :=
  (prompt_of review_text (repair_instruction accept_min accept_max)).

Lemma primary_sentiment (n : nat) tldr sentiment :
  primary n = Ok (tldr, sentiment) -> sentiment ∈ sentiments.
Proof.
  unfold primary_at, primary_fields.
  destruct (ask_at _ _ _ _) as [data|]; [|done].
  destruct (get_method data (lit "tldr") _) as [v|]; [|done].
  destruct (get_method data (lit "sentiment") _) as [s|]; [|done].
  destruct (_normalize_sentiment rt s) as [r|] eqn:E; [|done].
  intros [= _ <-]. by eapply normalize_sentiment_values.
Qed.

Lemma kept_stripped (n : nat) (tldr : pystr) :
  strip tldr = tldr -> strip (kept n tldr) = kept n tldr.
Proof.
  intros H. unfold kept_tldr, repair_at.
  destruct (ask_at _ _ _ _) as [data2|]; [|done].
  destruct (get_method data2 _ _) as [v2|]; [|done].
  destruct (_ <? _); [apply strip_idemp|done].
Qed.

(** A record as line 129 builds it, with a normalized sentiment and a
    stripped tldr. *)
Lemma attempt_result (tr tr' : trace) v :
  attempt tr = (Ok v, tr') ->
  exists sentiment tldr,
    v = summary sentiment tldr
    /\ sentiment ∈ sentiments
    /\ strip tldr = tldr.
Proof.
  rewrite attempt_body_run.
  destruct (primary _) as [[tldr sentiment]|e] eqn:Hp; [|done].
  pose proof (primary_sentiment _ _ _ Hp) as Hs.
  destruct (primary_stripped _ _ _ _ _ Hp) as [raw ->].
  destruct (_ || _); intros [= <- _]; do 2 eexists;
    (split; [done|]); (split; [done|]).
  - apply kept_stripped, strip_idemp.
  - apply strip_idemp.
Qed.

Lemma loop_result (n : nat) :
  forall (a : Z) last (tr tr' : trace) v,
    loop n a last tr = (Ok v, tr') ->
    exists sentiment tldr,
      v = summary sentiment tldr
      /\ sentiment ∈ sentiments
      /\ strip tldr = tldr.
Proof.
  induction n as [|n IH]; intros a last tr tr' v; simpl.
  { by destruct last. }
  unfold try_except. destruct (attempt tr) as [[v0|e] tr0] eqn:Ha.
  - intros [= <- <-]. by eapply attempt_result.
  - destruct (a <? retries); [|done].
    unfold bind, sleep. destruct (Qle_bool _ _); [|done]. apply IH.
Qed.

(** X7. Whenever [summarise] returns, whatever the arguments and whatever
    the model answered, the value is a record with exactly the keys
    [sentiment] and [tldr], in that order: the sentiment is one of "pos",
    "neg", "mixed", and the tldr is a string without whitespace at either
    end. *)
Theorem summarise_returns_summary (tr tr' : trace) v :
  summ tr = (Ok v, tr') ->
  exists sentiment tldr,
    v = summary sentiment tldr
    /\ sentiment ∈ sentiments
    /\ strip tldr = tldr.
Proof. apply loop_result. Qed.

Lemma attempt_events (tr : trace) :
  exists r (rep : bool),
    attempt tr = (r, tr ++ p_req :: (if rep then [r_req] else []))
    /\ (rep = true -> exists v, r = Ok v).
Proof.
  rewrite attempt_body_run.
  destruct (primary _) as [[tldr sentiment]|e].
  - destruct (_ || _).
    + exists (Ok (summary sentiment (kept (S (length (prompts tr))) tldr))), true.
      eauto.
    + exists (Ok (summary sentiment tldr)), false. split; [done|]. eauto.
  - exists (Raise e), false. split; [done|]. intros [=].
Qed.

Lemma loop_events (n : nat) :
  forall (a : Z) last (tr : trace),
    a + Z.of_nat n = retries + 1 ->
    exists (m : nat) (rep : bool) (evs : list event),
      snd (loop n a last tr) = tr ++ evs
      /\ prompts evs = replicate m p_prompt ++ (if rep then [r_prompt] else [])
      /\ (m <= n)%nat
      /\ (0 < n -> 0 < m)%nat
      /\ length (sleeps evs) = (m - 1)%nat.
Proof.
  induction n as [|n IH]; intros a last tr Hn.
  { exists 0%nat, false, []. simpl. rewrite app_nil_r.
    destruct last; repeat split; (done || lia). }
  simpl. unfold try_except.
  destruct (attempt_events tr) as (r & rep & -> & Hrep).
  destruct r as [v|e].
  { exists 1%nat, rep, (p_req :: (if rep then [r_req] else [])).
    split; [done|]. split; [by destruct rep|]. split; [lia|].
    split; [lia|]. by destruct rep. }
  assert (rep = false) as -> by (destruct rep; [by destruct Hrep|done]).
  destruct (a <? retries) eqn:Ha.
  - unfold bind, sleep. destruct (Qle_bool _ _).
    + apply Z.ltb_lt in Ha.
      destruct (IH (a + 1) (Some e)
                   ((tr ++ [p_req]) ++ [EvSleep (backoff * inject_Z (2 ^ a))]))
        as (m & rep & evs & -> & Hp & Hm & Hpos & Hs); [lia|].
      exists (S m), rep,
        (p_req :: EvSleep (backoff * inject_Z (2 ^ a)) :: evs).
      split; [by rewrite <- !app_assoc|].
      split; [simpl; by rewrite Hp|]. split; [lia|]. split; [lia|].
      simpl. rewrite Hs. assert (0 < m)%nat by (apply Hpos; lia). lia.
    + exists 1%nat, false, [p_req]. simpl. repeat split; (done || lia).
  - exists 1%nat, false, [p_req]. simpl. repeat split; (done || lia).
Qed.

(** X8. One call of [summarise] only appends to the trace.  It sends the
    primary prompt [m] times, [m <= retries + 1] (no request at all when
    [retries < 0]), then at most one repair prompt, and nothing else; and
    it sleeps [m - 1] times.  So a review costs at most [retries + 2]
    requests and [retries] sleeps, whatever the model answers. *)
Theorem summarise_cost (tr : trace) :
  exists (m : nat) (rep : bool) (evs : list event),
    snd (summ tr) = tr ++ evs
    /\ prompts evs = replicate m p_prompt ++ (if rep then [r_prompt] else [])
    /\ (m <= Z.to_nat (retries + 1))%nat
    /\ length (sleeps evs) = (m - 1)%nat.
Proof.
  destruct (Z_le_gt_dec 0 (retries + 1)) as [Hr|Hr].
  - destruct (loop_events (Z.to_nat (retries + 1)) 0 None tr)
      as (m & rep & evs & H1 & H2 & H3 & _ & H4); [lia|].
    by exists m, rep, evs.
  - exists 0%nat, false, []. unfold summarise.
    replace (Z.to_nat (retries + 1)) with 0%nat by lia.
    simpl. rewrite app_nil_r. repeat split; (done || lia).
Qed.

(** X9. With [retries < 0] the loop body never runs: [summarise] sends no
    request, does not sleep, and raises the [TypeError] of [raise None]. *)
Theorem summarise_negative_retries (tr : trace) :
  retries < 0 ->
  exists e, summ tr = (Raise e, tr) /\ exn_class e = "TypeError"%string.
Proof.
  intros Hr. unfold summarise.
  replace (Z.to_nat (retries + 1)) with 0%nat by lia.
  eexists. split; reflexivity.
Qed.

(** X10. With a negative [backoff], a failed attempt that should be
    followed by a retry ([retries >= 1]) ends the call: [time.sleep]
    raises [ValueError], which replaces the error of the attempt, and no
    second request is sent. *)
Theorem summarise_negative_backoff (tr : trace) e :
  (backoff < 0)%Q ->
  0 < retries ->
  primary (length (prompts tr)) = Raise e ->
  exists e',
    summ tr = (Raise e', tr ++ [p_req])
    /\ exn_class e' = "ValueError"%string.
Proof.
  intros Hb Hr He. unfold summarise.
  replace (Z.to_nat (retries + 1)) with (S (Z.to_nat retries)) by lia.
  simpl. unfold try_except. rewrite attempt_body_run, He.
  apply Z.ltb_lt in Hr. rewrite Hr. unfold bind, sleep.
  destruct (Qle_bool _ _) eqn:E.
  - exfalso. apply Qle_bool_iff in E. simpl in E.
    change (2 ^ 0) with 1 in E. rewrite Qmult_1_r in E.
    by apply Qle_not_lt in E.
  - eexists. split; reflexivity.
Qed.

(** X11. When the accept band lies within the extremes (as with the
    defaults), a primary response whose tldr word count is in
    [accept_min, accept_max] is returned as it is, after the primary
    request alone, whichever attempt it comes from. *)
Theorem summarise_accepts_in_band (k : nat) (tr : trace) tldr sentiment :
  (0 <= backoff)%Q ->
  Z.of_nat k <= retries ->
  (forall i, (i < k)%nat ->
             exists e, primary (length (prompts tr) + i) = Raise e) ->
  primary (length (prompts tr) + k) = Ok (tldr, sentiment) ->
  extreme_min <= accept_min ->
  accept_max <= extreme_max ->
  accept_min <= _count_words tldr <= accept_max ->
  summ tr
  = (Ok (summary sentiment tldr),
     tr ++ retry_trace review_text backoff k ++ [p_req]).
Proof.
  intros Hb Hk Hfail Hp Hmin Hmax Hwc.
  apply summarise_within_extremes; [done..|lia].
Qed.

(** X12. The repair prompt is never the primary prompt, whatever the
    review and the band: the two kinds of requests of a trace cannot be
    confused. *)
Theorem repair_prompt_differs :
  prompt_of review_text []
  <> prompt_of review_text (repair_instruction accept_min accept_max).
Proof.
  unfold prompt_of, repair_instruction. simpl str_truthy. cbv iota.
  rewrite <- !app_assoc. intros H.
  do 3 apply app_inv_head in H. discriminate H.
Qed.

End SummariseMore.

(** ** The review loop: cache and snapshots *)

Lemma dict_get_set_eq (d : list (pystr * pyval)) k v :
  dict_get (dict_set d k v) k = Some v.
Proof.
  induction d as [|[k' v'] d IH]; simpl.
  - by rewrite decide_True.
  - destruct (decide (k' = k)) as [->|Hne]; simpl.
    + by rewrite decide_True.
    + by rewrite decide_False.
Qed.

Lemma dict_get_set_ne (d : list (pystr * pyval)) k k' v :
  k <> k' -> dict_get (dict_set d k v) k' = dict_get d k'.
Proof.
  intros Hne. induction d as [|[k0 v0] d IH]; simpl.
  - by rewrite decide_False.
  - destruct (decide (k0 = k)) as [->|Hne0]; simpl.
    + by rewrite !decide_False.
    + destruct (decide (k0 = k')); [done|apply IH].
Qed.

Section MainMore.

Context (rt : Runtime).
Variable no_cache : bool.

Local Abbreviation body := (review_body rt no_cache).
Local Abbreviation step := (process_review rt no_cache).
Local Abbreviation key_of := (fun rev : Review => _hash_text rt (text rev)).

Lemma first_surrogate_none (t : pystr) :
  forall i, first_surrogate i t = None <-> forallb (fun c => negb (is_surrogate c)) t = true.
Proof.
  induction t as [|c t IH]; intros i; simpl; [done|].
  destruct (is_surrogate c); simpl; [done|apply IH].
Qed.

(** The texts that [_hash_text] accepts: the strings without a surrogate
    code point. *)
Lemma hashable_str (rev : Review) :
  hashable rt rev <->
  exists t, text rev = PStr t
            /\ forallb (fun c => negb (is_surrogate c)) t = true.
Proof.
  unfold hashable, _hash_text. split.
  - intros [key H]. destruct (text rev) as [| | | |t| |]; try done.
    exists t. split; [done|]. apply (first_surrogate_none t 0%nat).
    destruct (first_surrogate 0 t) as [[[? ?] ?]|]; done.
  - intros (t & -> & H). apply (first_surrogate_none t 0%nat) in H.
    rewrite H. eauto.
Qed.

Lemma Forall_take_le {A} (P : A -> Prop) (l : list A) i j :
  (i <= j)%nat -> Forall P (take j l) -> Forall P (take i l).
Proof.
  intros Hij H. replace (take i l) with (take i (take j l));
    [by apply Forall_take|].
  by rewrite take_take, Nat.min_l.
Qed.

Lemma initial_state_snapshots (loaded : pyval) :
  rs_snapshots (initial_state no_cache loaded) = [].
Proof.
  unfold initial_state. by destruct (if no_cache then PDict [] else loaded).
Qed.

Lemma initial_state_dict (loaded : pyval) :
  no_cache = true \/ (exists d, loaded = PDict d) ->
  dict_cache (initial_state no_cache loaded).
Proof.
  intros [Hnc|[d ->]]; unfold initial_state;
    [rewrite Hnc|destruct no_cache]; simpl; by eexists.
Qed.

Lemma attach_trace (rev : Review) (l : nat) (st : run_state) :
  rs_trace (attach rev l st) = rs_trace st.
Proof.
  unfold attach. destruct (rs_heap st !! l) as [s|]; [|done].
  destruct (setitem s _ _) as [s1|e]; [|done].
  by destruct (setitem s1 _ _).
Qed.

Lemma attach_cache (rev : Review) (l : nat) (st : run_state) :
  rs_cache (attach rev l st) = rs_cache st.
Proof.
  unfold attach. destruct (rs_heap st !! l) as [s|]; [|done].
  destruct (setitem s _ _) as [s1|e]; [|done].
  by destruct (setitem s1 _ _).
Qed.

(** A cache that is a [dict] stays one. *)
Lemma review_body_dict (key : pystr) (st : run_state) (rev : Review) :
  dict_cache st -> dict_cache (body key st rev).
Proof.
  intros [m Hm]. unfold review_body, dict_cache.
  destruct (if no_cache then Ok false else _) as [[|]|e]; [| |by exists m].
  - destruct (cache_getitem _ _) as [l|e]; [|by exists m].
    rewrite attach_cache. by exists m.
  - destruct (summarise_default rt _ _) as [[s|e] tr]; [|by exists m].
    destruct (if no_cache then Ok (rs_cache st) else _) as [c|e] eqn:Hset;
      [|by exists m].
    rewrite attach_cache. simpl.
    destruct no_cache; [injection Hset as <-; by exists m|].
    apply cache_setitem_entries in Hset as [-> _]. eauto.
Qed.

Lemma run_loop_dict (reviews : list Review) :
  forall st fin : run_state,
    dict_cache st -> run_loop rt no_cache st reviews = Ok fin ->
    dict_cache fin.
Proof.
  induction reviews as [|rev reviews IH]; intros st fin Hd; simpl;
    [by intros [= <-]|].
  destruct (step st rev) as [st1|e] eqn:Hstep; simpl; [|done].
  apply process_review_ok in Hstep as (key & _ & ->).
  apply IH. by apply review_body_dict.
Qed.

(** The cache never loses or moves an entry. *)
Lemma review_body_cache_mono (key : pystr) (st : run_state) (rev : Review) k l :
  entries_of (rs_cache st) !! k = Some l ->
  entries_of (rs_cache (body key st rev)) !! k = Some l.
Proof.
  intros Hk. unfold review_body.
  destruct (if no_cache then Ok false else _) as [[|]|e] eqn:Hc; [| |done].
  - destruct (cache_getitem _ _) as [l0|e]; [by rewrite attach_cache|done].
  - destruct (summarise_default rt _ _) as [[s|e] tr]; [|done].
    destruct (if no_cache then Ok (rs_cache st) else _) as [c|e] eqn:Hset;
      [|done].
    rewrite attach_cache. simpl.
    destruct no_cache; [by injection Hset as <-|].
    apply cache_setitem_entries in Hset as [-> [m Hm]]. simpl.
    rewrite lookup_insert_ne; [done|]. intros <-.
    rewrite Hm in Hc, Hk. simpl in Hc, Hk.
    injection Hc as Hc. apply bool_decide_eq_false in Hc. apply Hc. eauto.
Qed.

Lemma run_loop_cache_mono (reviews : list Review) :
  forall (st fin : run_state) k l,
    entries_of (rs_cache st) !! k = Some l ->
    run_loop rt no_cache st reviews = Ok fin ->
    entries_of (rs_cache fin) !! k = Some l.
Proof.
  induction reviews as [|rev reviews IH]; intros st fin k l Hk; simpl;
    [by intros [= <-]|].
  destruct (step st rev) as [st1|e] eqn:Hstep; simpl; [|done].
  apply process_review_ok in Hstep as (key & _ & ->).
  apply IH. by apply review_body_cache_mono.
Qed.

(** After a review that did not fail, its text is in the cache. *)
Lemma review_body_caches (key : pystr) (st : run_state) (rev : Review) :
  no_cache = false ->
  dict_cache st ->
  is_Some (entries_of (rs_cache st) !! key)
  \/ (exists s tr,
         summarise_default rt (py_str rt (text rev)) (rs_trace st)
         = (Ok s, tr)) ->
  is_Some (entries_of (rs_cache (body key st rev)) !! key).
Proof.
  intros Hnc [m Hm] Hok.
  destruct (entries_of (rs_cache st) !! key) as [l|] eqn:Hl.
  { exists l. by apply review_body_cache_mono. }
  destruct Hok as [[l' Hl']|(s & tr & Hs)]; [done|].
  unfold review_body. rewrite Hnc, Hm. simpl.
  rewrite Hm in Hl. simpl in Hl. rewrite Hl.
  rewrite bool_decide_eq_false_2 by by intros [? ?].
  rewrite Hs, attach_cache. simpl. rewrite lookup_insert_eq. eauto.
Qed.

Lemma run_take_S (loaded : pyval) (reviews : list Review) i rev :
  reviews !! i = Some rev ->
  run rt no_cache loaded (take (S i) reviews)
  = rbind (run rt no_cache loaded (take i reviews)) (fun st => step st rev).
Proof.
  intros Hi. unfold run. rewrite (take_S_r _ _ _ Hi), run_loop_app.
  destruct (run_loop _ _ _ _); [|done]. simpl. apply rbind_ok.
Qed.

Lemma run_take_le (loaded : pyval) (reviews : list Review) i j :
  (i <= j)%nat ->
  run rt no_cache loaded (take j reviews)
  = rbind (run rt no_cache loaded (take i reviews))
          (fun st => run_loop rt no_cache st (drop i (take j reviews))).
Proof.
  intros Hij. unfold run.
  rewrite <- (take_drop i (take j reviews)) at 1.
  rewrite take_take, Nat.min_l by done.
  apply run_loop_app.
Qed.

(** X13. With caching on and a cache file that holds a JSON object (or no
    cache file), a text is summarised once: when the texts up to rank [j]
    can be hashed and the review of rank [i] did not fail (it was served
    from the cache, or [summarise] returned), a later review of rank [j]
    with the same text sends no request and causes no sleep. *)
Theorem run_summarises_once
    (d : list (pystr * pyval)) (reviews : list Review)
    (i j : nat) (ri rj : Review) (st : run_state) (key : pystr) :
  no_cache = false ->
  Forall (hashable rt) (take (S j) reviews) ->
  reviews !! i = Some ri ->
  reviews !! j = Some rj ->
  (i < j)%nat ->
  text rj = text ri ->
  run rt no_cache (PDict d) (take i reviews) = Ok st ->
  _hash_text rt (text ri) = Ok key ->
  is_Some (entries_of (rs_cache st) !! key)
  \/ (exists s tr,
         summarise_default rt (py_str rt (text ri)) (rs_trace st)
         = (Ok s, tr)) ->
  exists stj stj',
    run rt no_cache (PDict d) (take j reviews) = Ok stj
    /\ run rt no_cache (PDict d) (take (S j) reviews) = Ok stj'
    /\ rs_trace stj' = rs_trace stj.
Proof.
  intros Hnc Hrs Hi Hj Hij Htext Hst Hkey Hok.
  assert (dict_cache st) as Hd.
  { eapply run_loop_dict; [|exact Hst]. apply initial_state_dict. eauto. }
  assert (cache_wf st) as Hwf.
  { destruct (run_prefix rt no_cache (PDict d) reviews i)
      as (st0 & Hst0 & _ & Hwf).
    - eapply Forall_take_le; [|exact Hrs]. lia.
    - rewrite Hst in Hst0. by injection Hst0 as <-. }
  set (sti := body key st ri).
  assert (run rt no_cache (PDict d) (take (S i) reviews) = Ok sti) as Hsti.
  { rewrite (run_take_S _ _ _ _ Hi), Hst. simpl.
    unfold process_review. by rewrite Hkey. }
  assert (is_Some (entries_of (rs_cache sti) !! key)) as [l Hl]
    by by apply review_body_caches.
  assert (cache_wf sti) as Hwfi
    by by eapply extends_wf, review_body_extends.
  destruct (run_loop_keeps rt no_cache (drop (S i) (take j reviews)) sti Hwfi)
    as (stj & Hstj & _ & _ & _ & Hwfj).
  { apply Forall_drop. eapply Forall_take_le; [|exact Hrs]. lia. }
  assert (run rt no_cache (PDict d) (take j reviews) = Ok stj) as Hrunj.
  { rewrite (run_take_le (PDict d) reviews (S i) j) by lia.
    by rewrite Hsti. }
  assert (entries_of (rs_cache stj) !! key = Some l) as Hlj
    by by eapply run_loop_cache_mono.
  assert (dict_cache stj) as Hdj.
  { eapply run_loop_dict; [|exact Hstj]. by apply review_body_dict. }
  exists stj, (body key stj rj). split; [done|]. split.
  - rewrite (run_take_S _ _ _ _ Hj), Hrunj. simpl.
    unfold process_review. by rewrite Htext, Hkey.
  - destruct (review_body_cached rt no_cache key stj rj) as [H|H]; [done|].
    rewrite Hnc, cache_contains_entries in H by done.
    injection H as H. apply bool_decide_eq_false in H. destruct H. eauto.
Qed.

Lemma error_snapshot_author (e : exn) (rev : Review) :
  has_author (error_snapshot e rev).
Proof. eexists. split; [done|]. eexists. vm_compute. reflexivity. Qed.

Lemma setitem_author (s s1 : pyval) v :
  setitem s (lit "author") v = Ok s1 -> has_author s1.
Proof.
  destruct s; try done. simpl. intros [= <-].
  eexists. split; [done|]. rewrite dict_get_set_eq. eauto.
Qed.

Lemma setitem_recommended (s1 s2 : pyval) v :
  has_author s1 -> setitem s1 (lit "recommended") v = Ok s2 -> has_author s2.
Proof.
  intros (d & -> & Hd). simpl. intros [= <-].
  eexists. split; [done|]. by rewrite dict_get_set_ne.
Qed.

Local Abbreviation readable st :=
  (Forall (fun l => exists v, rs_heap st !! l = Some v /\ has_author v)
          (rs_snapshots st)).

Lemma on_error_readable (rev : Review) e (st : run_state) :
  readable st -> readable (on_error rev e st).
Proof.
  intros H. unfold on_error. simpl. apply Forall_app. split.
  - eapply Forall_impl; [exact H|]. intros l (v & Hv & Ha).
    exists v. split; [|done]. by apply lookup_app_l_Some.
  - apply Forall_singleton. exists (error_snapshot e rev).
    split; [|apply error_snapshot_author].
    by rewrite lookup_app_r, Nat.sub_diag.
Qed.

Lemma insert_readable (st : run_state) (h : list pyval) l v :
  readable st -> has_author v -> (l < length (rs_heap st))%nat ->
  Forall (fun l' => exists v', <[l := v]> (rs_heap st) !! l' = Some v'
                               /\ has_author v')
         (rs_snapshots st).
Proof.
  intros H Hv Hl. eapply Forall_impl; [exact H|].
  intros l' (v' & Hv' & Ha). destruct (decide (l = l')) as [<-|Hne].
  - exists v. split; [|done]. by apply list_lookup_insert_eq.
  - exists v'. split; [|done]. by rewrite list_lookup_insert_ne.
Qed.

Lemma attach_readable (rev : Review) (l : nat) (st : run_state) :
  (l < length (rs_heap st))%nat ->
  readable st -> readable (attach rev l st).
Proof.
  intros Hl H. unfold attach.
  destruct (lookup_lt_is_Some_2 _ _ Hl) as [s ->].
  destruct (setitem s _ _) as [s1|e] eqn:E1; [|by apply on_error_readable].
  pose proof (setitem_author _ _ _ E1) as Ha1.
  destruct (setitem s1 _ _) as [s2|e] eqn:E2.
  - pose proof (setitem_recommended _ _ _ Ha1 E2) as Ha2.
    simpl. apply Forall_app. split.
    + by apply (insert_readable st (rs_heap st)).
    + apply Forall_singleton. exists s2. split; [|done].
      by apply list_lookup_insert_eq.
  - apply on_error_readable. simpl.
    by apply (insert_readable st (rs_heap st)).
Qed.

Lemma alloc_readable (st : run_state) tr c s :
  readable st ->
  readable {| rs_trace := tr;
              rs_heap := rs_heap st ++ [s];
              rs_cache := c;
              rs_snapshots := rs_snapshots st |}.
Proof.
  intros H. simpl. eapply Forall_impl; [exact H|]. intros l (v & Hv & Ha).
  exists v. split; [|done]. by apply lookup_app_l_Some.
Qed.

Lemma review_body_readable (key : pystr) (st : run_state) (rev : Review) :
  cache_wf st -> readable st -> readable (body key st rev).
Proof.
  intros Hwf H. unfold review_body.
  destruct (if no_cache then Ok false else _) as [[|]|e] eqn:Hc;
    [| |by apply on_error_readable].
  - destruct (cache_getitem _ _) as [l|e] eqn:Hg;
      [|by apply on_error_readable].
    apply attach_readable; [|done].
    apply cache_getitem_entries in Hg. by eapply Hwf.
  - destruct (summarise_default rt _ _) as [[s|e] tr].
    + destruct (if no_cache then Ok (rs_cache st) else _) as [c|e].
      * apply attach_readable; [|by apply alloc_readable].
        simpl. rewrite length_app. simpl. lia.
      * apply on_error_readable. by apply alloc_readable.
    + by apply (on_error_readable rev e
                  {| rs_trace := tr; rs_heap := rs_heap st;
                     rs_cache := rs_cache st;
                     rs_snapshots := rs_snapshots st |}).
Qed.

Lemma run_loop_readable (reviews : list Review) :
  forall st fin : run_state,
    cache_wf st -> readable st ->
    run_loop rt no_cache st reviews = Ok fin ->
    readable fin.
Proof.
  induction reviews as [|rev reviews IH]; intros st fin Hwf H; simpl;
    [by intros [= <-]|].
  destruct (step st rev) as [st1|e] eqn:Hstep; simpl; [|done].
  apply process_review_ok in Hstep as (key & _ & ->).
  apply IH.
  - by eapply extends_wf, review_body_extends.
  - by apply review_body_readable.
Qed.

(** X14. Whatever JSON value the cache file holds and whatever the model
    answers, when every text of the batch can be hashed (a string that
    UTF-8 can encode) the loop ends and leaves one snapshot per review, and
    every snapshot is a [dict] with an [author] key: what [_print_table]
    reads ([in], [get], [s["error"]]) is defined on each of them. *)
Theorem run_snapshots_readable (loaded : pyval) (reviews : list Review) :
  Forall (hashable rt) reviews ->
  exists fin,
    run rt no_cache loaded reviews = Ok fin
    /\ length (snapshot_values fin) = length reviews
    /\ Forall (fun o => exists v, o = Some v /\ has_author v)
              (snapshot_values fin).
Proof.
  intros Hrs.
  destruct (run_loop_keeps rt no_cache reviews _
              (initial_state_wf no_cache loaded) Hrs)
    as (fin & Hfin & Hlen & _).
  exists fin. split; [done|]. split.
  - unfold snapshot_values.
    by rewrite length_fmap, Hlen, initial_state_snapshots.
  - assert (readable fin) as H.
    { eapply run_loop_readable; [apply initial_state_wf| |exact Hfin].
      rewrite initial_state_snapshots. by constructor. }
    unfold snapshot_values. apply Forall_fmap.
    eapply Forall_impl; [exact H|]. intros l (v & Hv & Ha). simpl. eauto.
Qed.





(** X21. Line 100 is outside the [try]: at the first review whose text
    [_hash_text] rejects (a text with a surrogate code point, or a value
    that is not a string) [run] ends with the exception of [_hash_text],
    whatever the earlier reviews gave and whatever the cache holds: no
    snapshot is output. *)
Theorem run_aborts_on_unhashable
    (loaded : pyval) (reviews : list Review) (i : nat) (rev : Review) :
  Forall (hashable rt) (take i reviews) ->
  reviews !! i = Some rev ->
  ~ hashable rt rev ->
  exists e,
    _hash_text rt (text rev) = Raise e
    /\ run rt no_cache loaded reviews = Raise e.
Proof.
  intros Hrs Hi Hrev.
  destruct (_hash_text rt (text rev)) as [key|e] eqn:He.
  { destruct Hrev. by exists key. }
  exists e. split; [done|].
  destruct (run_prefix rt no_cache loaded reviews i Hrs) as (st & Hst & _).
  rewrite (run_split rt no_cache loaded reviews i rev Hi), Hst. simpl.
  unfold process_review. by rewrite He.
Qed.

(** With caching on and a cache that is not a [dict], the [try] statement
    always ends in the handler. *)
Lemma review_body_unusable (key : pystr) (st : run_state) (rev : Review) :
  no_cache = false ->
  (forall m, rs_cache st <> CDict m) ->
  exists e ext,
    rs_heap (body key st rev)
    = rs_heap st ++ ext ++ [error_snapshot e rev]
    /\ rs_snapshots (body key st rev)
       = rs_snapshots st ++ [length (rs_heap st ++ ext)]
    /\ rs_cache (body key st rev) = rs_cache st.
Proof.
  intros Hnc Hm. unfold review_body. rewrite Hnc.
  assert (forall e, exists e0 ext,
             rs_heap (on_error rev e st)
             = rs_heap st ++ ext ++ [error_snapshot e0 rev]
             /\ rs_snapshots (on_error rev e st)
                = rs_snapshots st ++ [length (rs_heap st ++ ext)]
             /\ rs_cache (on_error rev e st) = rs_cache st) as Herr.
  { intros e. exists e, []. simpl. by rewrite app_nil_r. }
  destruct (cache_contains _ _) as [[|]|e] eqn:Hc; [| |apply Herr].
  - destruct (cache_getitem _ _) as [l|e] eqn:Hg; [|apply Herr].
    destruct (rs_cache st) as [m| | | | | |]; try done. by destruct (Hm m).
  - destruct (summarise_default rt _ _) as [[s|e] tr].
    + destruct (cache_setitem _ _ _) as [c|e] eqn:Hset.
      { apply cache_setitem_entries in Hset as [_ [m Hset]].
        by destruct (Hm m). }
      exists e, [s]. simpl. by rewrite <- app_assoc.
    + exists e, []. simpl. by rewrite app_nil_r.
Qed.

Local Abbreviation failed_all st :=
  (Forall (fun l => exists v, rs_heap st !! l = Some v /\ error_record v)
          (rs_snapshots st)).

Lemma run_loop_unusable (reviews : list Review) :
  forall st fin : run_state,
    no_cache = false ->
    (forall m, rs_cache st <> CDict m) ->
    failed_all st ->
    run_loop rt no_cache st reviews = Ok fin ->
    failed_all fin.
Proof.
  induction reviews as [|rev reviews IH]; intros st fin Hnc Hm H; simpl;
    [by intros [= <-]|].
  destruct (step st rev) as [st1|e] eqn:Hstep; simpl; [|done].
  apply process_review_ok in Hstep as (key & _ & ->).
  destruct (review_body_unusable key st rev Hnc Hm)
    as (e & ext & Hh & Hs & Hc).
  apply IH; [done|by rewrite Hc|].
  rewrite Hs, Hh. apply Forall_app. split.
  - eapply Forall_impl; [exact H|]. intros l (v & Hv & Ha).
    exists v. split; [|done]. by apply lookup_app_l_Some.
  - apply Forall_singleton. exists (error_snapshot e rev). split.
    + by rewrite app_assoc, lookup_app_r, Nat.sub_diag.
    + eexists. split; [done|]. eexists. vm_compute. reflexivity.
Qed.

(** X22. With caching on and a cache file that holds a JSON value other
    than an object (an array, a string, a number, [true], [false] or
    [null]), no review gets a summary: when every text can be hashed the
    loop ends with one snapshot per review, and each of them is an error
    record. *)
Theorem run_unusable_cache (loaded : pyval) (reviews : list Review) :
  no_cache = false ->
  (forall d, loaded <> PDict d) ->
  Forall (hashable rt) reviews ->
  exists fin,
    run rt no_cache loaded reviews = Ok fin
    /\ length (snapshot_values fin) = length reviews
    /\ Forall (fun o => exists v, o = Some v /\ error_record v)
              (snapshot_values fin).
Proof.
  intros Hnc Hd Hrs.
  destruct (run_loop_keeps rt no_cache reviews _
              (initial_state_wf no_cache loaded) Hrs)
    as (fin & Hfin & Hlen & _).
  exists fin. split; [done|]. split.
  - unfold snapshot_values.
    by rewrite length_fmap, Hlen, initial_state_snapshots.
  - assert (failed_all fin) as H.
    { eapply run_loop_unusable; [done| | |exact Hfin].
      - unfold initial_state. rewrite Hnc.
        destruct loaded as [| | | | | |d]; try done. by destruct (Hd d).
      - rewrite initial_state_snapshots. by constructor. }
    unfold snapshot_values. apply Forall_fmap.
    eapply Forall_impl; [exact H|]. intros l (v & Hv & Ha). simpl. eauto.
Qed.

End MainMore.

(** ** steam.py *)

Section SteamFacts.

Context (rt : Runtime) (sx : Steam).

Lemma get_appid_apps (title : pystr) (fuzzy : bool) (cutoff : Q) J apps :
  app_list sx = Ok J ->
  apps_of J = Ok apps ->
  _get_appid rt sx title fuzzy cutoff
  = (found <~ exact_match rt (strip (lower rt title)) apps ;;
     match found with
     | Some appid => Ok appid
     | None =>
         if negb fuzzy
         then Raise (ValueError "Game not found (tip: use fuzzy=True)")
         else
           names <~ comprehension (fun a => getitem a (lit "name")) apps ;;
           matches <~ get_close_matches sx title names cutoff ;;
           match matches with
           | [] =>
               Raise (ValueError "Game not found (no fuzzy match above cutoff)")
           | chosen :: _ =>
               found' <~ chosen_match sx chosen apps ;;
               match found' with
               | Some appid => Ok appid
               | None =>
                   Raise (ValueError "Unexpected: fuzzy match not in list")
               end
           end
     end).
Proof.
  intros HJ Happs. unfold _get_appid, apps_of in *. rewrite HJ. simpl.
  destruct (getitem J _) as [applist|]; [|done]. simpl in *.
  destruct (getitem applist _) as [apps_value|]; [|done]. simpl in *.
  by rewrite Happs.
Qed.

Lemma exact_match_skip (low : pystr) (pre rest : list pyval) :
  Forall (named rt low) pre ->
  exact_match rt low (pre ++ rest) = exact_match rt low rest.
Proof.
  induction 1 as [|app pre (name & Hname & Hne) _ IH]; [done|].
  simpl. rewrite Hname. simpl. by rewrite bool_decide_eq_false_2.
Qed.

Lemma exact_match_none (low : pystr) (apps : list pyval) :
  Forall (named rt low) apps -> exact_match rt low apps = Ok None.
Proof.
  intros H. rewrite <- (app_nil_r apps). by rewrite exact_match_skip.
Qed.

(** X16. [_get_appid] returns the [appid] of the first app whose name, put
    in lower case, is the title in lower case and stripped, fuzzy matching
    or not: the apps before it only need a name that is a string. *)
Theorem get_appid_exact
    (title : pystr) (fuzzy : bool) (cutoff : Q) J
    (pre post : list pyval) (app : pyval) name appid :
  app_list sx = Ok J ->
  apps_of J = Ok (pre ++ app :: post) ->
  Forall (named rt (strip (lower rt title))) pre ->
  getitem app (lit "name") = Ok (PStr name) ->
  lower rt name = strip (lower rt title) ->
  getitem app (lit "appid") = Ok appid ->
  _get_appid rt sx title fuzzy cutoff = Ok appid.
Proof.
  intros HJ Happs Hpre Hname Hlow Happid.
  rewrite (get_appid_apps _ _ _ _ _ HJ Happs), exact_match_skip by done.
  simpl. rewrite Hname. simpl. rewrite bool_decide_eq_true_2 by done.
  by rewrite Happid.
Qed.

(** X17. Without fuzzy matching, a title that no app name equals (in lower
    case) is refused with [ValueError], and [difflib] is not consulted. *)
Theorem get_appid_not_found (title : pystr) (cutoff : Q) J apps :
  app_list sx = Ok J ->
  apps_of J = Ok apps ->
  Forall (named rt (strip (lower rt title))) apps ->
  _get_appid rt sx title false cutoff
  = Raise (ValueError "Game not found (tip: use fuzzy=True)").
Proof.
  intros HJ Happs Hall.
  by rewrite (get_appid_apps _ _ _ _ _ HJ Happs), exact_match_none.
Qed.

Lemma names_of_named (low : pystr) (apps : list pyval) :
  Forall (named rt low) apps ->
  exists names,
    comprehension (fun a => getitem a (lit "name")) apps = Ok names
    /\ Forall2 (fun a n => getitem a (lit "name") = Ok n
                           /\ exists t, n = PStr t) apps names.
Proof.
  induction 1 as [|app apps (name & Hname & _) _ (names & Hc & Hn)].
  - exists []. split; [done|]. constructor.
  - exists (PStr name :: names). simpl. rewrite Hname. simpl. rewrite Hc.
    split; [done|]. constructor; [eauto|done].
Qed.

Lemma chosen_match_found (apps : list pyval) :
  forall names chosen,
    Forall2 (fun a n => getitem a (lit "name") = Ok n
                        /\ exists t, n = PStr t) apps names ->
    Forall (fun a => exists v, getitem a (lit "appid") = Ok v) apps ->
    chosen ∈ names ->
    exists app appid,
      app ∈ apps
      /\ getitem app (lit "name") = Ok chosen
      /\ getitem app (lit "appid") = Ok appid
      /\ chosen_match sx chosen apps = Ok (Some appid).
Proof.
  induction apps as [|a apps IH]; intros names chosen Hn Hid Hin.
  { apply Forall2_nil_inv_l in Hn as ->. by apply elem_of_nil in Hin. }
  apply Forall2_cons_inv_l in Hn as (n & names' & [Hname [t ->]] & Hn & ->).
  apply Forall_cons in Hid as [[v Hv] Hid].
  simpl. rewrite Hname. simpl.
  destruct (py_eq sx (PStr t) chosen) eqn:E.
  - exists a, v. rewrite Hv. simpl. split; [apply list_elem_of_here|].
    split; [|done]. rewrite Hname. f_equal.
    apply elem_of_cons in Hin as [->|Hin]; [done|].
    assert (exists c, chosen = PStr c) as [c ->].
    { apply list_elem_of_lookup in Hin as [i Hi].
      destruct (Forall2_lookup_r _ _ _ _ _ Hn Hi) as (a' & _ & _ & c & ->).
      eauto. }
    rewrite py_eq_str in E. apply bool_decide_eq_true in E. by subst.
  - apply elem_of_cons in Hin as [->|Hin].
    { rewrite py_eq_str, bool_decide_eq_true_2 in E by done. done. }
    destruct (IH names' chosen Hn Hid Hin) as (app & appid & Ha & H1 & H2 & H3).
    exists app, appid. split; [by apply list_elem_of_further|]. done.
Qed.

(** X18. With fuzzy matching and no exact match, on a list of apps that
    all have a string name and an [appid]: an empty answer of
    [get_close_matches] is refused with [ValueError]; otherwise the result
    is the [appid] of an app of the list whose name is the first close
    match, and the error "Unexpected: fuzzy match not in list" is not
    raised. *)
Theorem get_appid_fuzzy (title : pystr) (cutoff : Q) J apps names matches :
  app_list sx = Ok J ->
  apps_of J = Ok apps ->
  Forall (named rt (strip (lower rt title))) apps ->
  Forall (fun a => exists v, getitem a (lit "appid") = Ok v) apps ->
  comprehension (fun a => getitem a (lit "name")) apps = Ok names ->
  get_close_matches sx title names cutoff = Ok matches ->
  match matches with
  | [] =>
      _get_appid rt sx title true cutoff
      = Raise (ValueError "Game not found (no fuzzy match above cutoff)")
  | chosen :: _ =>
      exists app appid,
        app ∈ apps
        /\ getitem app (lit "name") = Ok chosen
        /\ getitem app (lit "appid") = Ok appid
        /\ _get_appid rt sx title true cutoff = Ok appid
  end.
Proof.
  intros HJ Happs Hall Hid Hnames Hm.
  rewrite (get_appid_apps _ _ _ _ _ HJ Happs), exact_match_none by done.
  simpl. rewrite Hnames. simpl. rewrite Hm. simpl.
  destruct matches as [|chosen rest]; [done|].
  destruct (names_of_named _ _ Hall) as (names' & Hc & Hn).
  assert (names' = names) as -> by congruence.
  destruct (chosen_match_found apps names chosen Hn Hid)
    as (app & appid & Ha & H1 & H2 & H3).
  { eapply close_matches_in; [exact Hm|apply list_elem_of_here]. }
  exists app, appid. rewrite H3. done.
Qed.

Lemma comprehension_ok {A B} (f : A -> result B) (l : list A) outs :
  comprehension f l = Ok outs -> Forall2 (fun x y => f x = Ok y) l outs.
Proof.
  revert outs. induction l as [|x l IH]; intros outs; simpl.
  { intros [= <-]. constructor. }
  destruct (f x) as [y|] eqn:E; [|done]. simpl.
  destruct (comprehension f l) as [ys|]; [|done]. simpl.
  intros [= <-]. constructor; [done|]. by apply IH.
Qed.

Lemma comprehension_raise {A B} (f : A -> result B) (pre post : list A) bad e :
  Forall (fun x => exists y, f x = Ok y) pre ->
  f bad = Raise e ->
  comprehension f (pre ++ bad :: post) = Raise e.
Proof.
  intros Hpre Hbad. induction Hpre as [|x pre [y Hy] _ IH]; simpl.
  - by rewrite Hbad.
  - by rewrite Hy, IH.
Qed.

Lemma review_record_shape (rev out : pyval) :
  review_record rev = Ok out ->
  exists a t b,
    out = PDict [(lit "author", a); (lit "text", t);
                 (lit "recommended", PBool b)].
Proof.
  unfold review_record.
  destruct (getitem rev (lit "author")) as [a|]; [|done]. simpl.
  destruct (getitem a _) as [sid|]; [|done]. simpl.
  destruct (getitem rev (lit "review")) as [t|]; [|done]. simpl.
  destruct (get_method rev _ _) as [v|]; [|done]. simpl.
  intros [= <-]. eauto.
Qed.

(** X19. When [fetch_reviews] returns, it returns one record per review of
    the payload, in the order of the payload, and each record has exactly
    the keys [author], [text] and [recommended], the last one a [bool]. *)
Theorem fetch_reviews_records
    (game_title : pystr) (count : Z) (fuzzy : bool) outs :
  fetch_reviews rt sx game_title count fuzzy = Ok outs ->
  exists appid data reviews revs,
    _get_appid rt sx game_title fuzzy (17 # 25) = Ok appid
    /\ app_reviews sx appid count = Ok data
    /\ get_method data (lit "reviews") (PList []) = Ok reviews
    /\ py_iter reviews = Ok revs
    /\ Forall2 (fun rev out =>
                  review_record rev = Ok out
                  /\ exists a t b,
                      out = PDict [(lit "author", a); (lit "text", t);
                                   (lit "recommended", PBool b)])
               revs outs.
Proof.
  unfold fetch_reviews.
  destruct (_get_appid _ _ _ _ _) as [appid|] eqn:E1; [|done]. simpl.
  destruct (app_reviews sx appid count) as [data|] eqn:E2; [|done]. simpl.
  destruct (get_method data _ _) as [reviews|] eqn:E3; [|done]. simpl.
  destruct (py_iter reviews) as [revs|] eqn:E4; [|done]. simpl.
  intros H%comprehension_ok. exists appid, data, reviews, revs.
  split; [reflexivity|]. split; [exact E2|]. split; [exact E3|].
  split; [exact E4|].
  eapply Forall2_impl; [exact H|]. intros rev out Hr. split; [exact Hr|].
  exact (review_record_shape _ _ Hr).
Qed.

(** X20. One review of the payload that cannot be read (no [author], no
    [steamid], no [review]) makes [fetch_reviews] raise, whatever the
    reviews before and after it: no partial list is returned. *)
Theorem fetch_reviews_all_or_nothing
    (game_title : pystr) (count : Z) (fuzzy : bool)
    appid data reviews (pre post : list pyval) bad e :
  _get_appid rt sx game_title fuzzy (17 # 25) = Ok appid ->
  app_reviews sx appid count = Ok data ->
  get_method data (lit "reviews") (PList []) = Ok reviews ->
  py_iter reviews = Ok (pre ++ bad :: post) ->
  Forall (fun rev => exists out, review_record rev = Ok out) pre ->
  review_record bad = Raise e ->
  fetch_reviews rt sx game_title count fuzzy = Raise e.
Proof.
  intros Hid Hdata Hrevs Hiter Hpre Hbad. unfold fetch_reviews.
  rewrite Hid. simpl. rewrite Hdata. simpl. rewrite Hrevs. simpl.
  rewrite Hiter. simpl. by apply comprehension_raise.
Qed.

End SteamFacts.

(** ** The further properties on concrete inputs *)

(** Two words, a tab and a newline, three words. *)
Lemma count_words_app_witness :
  _count_words (lit "good game" ++ [9; 10]%N ++ lit "but too short") = 2 + 3.
Proof.
  rewrite (count_words_app (lit "good game") [9; 10]%N (lit "but too short"));
    [evaluate|evaluate|discriminate].
Defined.

Lemma count_words_join_witness :
  _count_words (join_words [lit "A"; lit "wonderful"; lit "story-driven";
                            lit "game"]) = 4.
Proof.
  apply (count_words_join [lit "A"; lit "wonderful"; lit "story-driven";
                           lit "game"]).
  repeat constructor; (discriminate || evaluate).
Defined.

(** A response with capitals and blanks around its fields. *)
Lemma summarise_returns_summary_witness :
  exists sentiment tldr,
    fst (summarise_default (scripted [reply " GOOD " "  fun for hours  "])
                           a_review [])
    = Ok (summary sentiment tldr)
    /\ sentiment ∈ sentiments
    /\ strip tldr = tldr.
Proof.
  destruct (summarise_returns_summary
              (scripted [reply " GOOD " "  fun for hours  "])
              a_review 2 (4 # 5) 8 12 6 16 []
              (snd (summarise_default
                      (scripted [reply " GOOD " "  fun for hours  "])
                      a_review []))
              (summary (lit "pos") (lit "fun for hours")))
    as (sentiment & tldr & Hv & Hs & Ht); [evaluate|].
  exists sentiment, tldr. split; [rewrite <- Hv; evaluate|]. done.
Defined.

Lemma summarise_negative_retries_witness :
  exists e,
    summarise (scripted [reply "pos" (words 10)]) a_review (-1) (4 # 5)
              8 12 6 16 []
    = (Raise e, [])
    /\ exn_class e = "TypeError"%string.
Proof.
  apply (summarise_negative_retries
           (scripted [reply "pos" (words 10)]) a_review (-1) (4 # 5)
           8 12 6 16 []).
  lia.
Defined.

Lemma summarise_negative_backoff_witness :
  exists e',
    summarise (scripted [timeout; reply "pos" (words 10)]) a_review 2
              (- (4 # 5)) 8 12 6 16 []
    = (Raise e', [] ++ [primary_request a_review])
    /\ exn_class e' = "ValueError"%string.
Proof.
  apply (summarise_negative_backoff
           (scripted [timeout; reply "pos" (words 10)]) a_review 2
           (- (4 # 5)) 8 12 6 16 [] (Exn "TimeoutError" (lit "timed out"))).
  - reflexivity.
  - lia.
  - evaluate.
Defined.

(** The end-to-end scenario of the defaults: 10 words, accepted. *)
Lemma summarise_accepts_in_band_witness :
  summarise_default
    (scripted [reply "positive"
                 "A wonderful narrative-driven experience that I thoroughly enjoyed playing"])
    a_review []
  = (Ok (summary (lit "pos")
           (lit "A wonderful narrative-driven experience that I thoroughly enjoyed playing")),
     [] ++ retry_trace a_review (4 # 5) 0 ++ [primary_request a_review]).
Proof.
  apply (summarise_accepts_in_band
           (scripted [reply "positive"
                        "A wonderful narrative-driven experience that I thoroughly enjoyed playing"])
           a_review 2 (4 # 5) 8 12 6 16 0 []).
  - discriminate.
  - lia.
  - intros i Hi. lia.
  - evaluate.
  - lia.
  - lia.
  - split; vm_compute; discriminate.
Defined.

(** Three reviews, the first and the third with the same text: the third
    costs no request. *)
Lemma run_summarises_once_witness :
  let rt := scripted [reply "pos" (words 10); reply "neg" (words 9)] in
  let reviews := [review_of "A" "Great" true; review_of "B" "Boring" false;
                  review_of "C" "Great" true] in
  exists stj stj',
    run rt false (PDict []) (take 2 reviews) = Ok stj
    /\ run rt false (PDict []) (take 3 reviews) = Ok stj'
    /\ rs_trace stj' = rs_trace stj.
Proof.
  intros rt reviews.
  eapply (run_summarises_once rt false [] reviews 0 2
            (review_of "A" "Great" true) (review_of "C" "Great" true)).
  - reflexivity.
  - repeat (apply Forall_cons; split; [eexists; evaluate|]). apply Forall_nil_2.
  - reflexivity.
  - reflexivity.
  - lia.
  - reflexivity.
  - evaluate.
  - evaluate.
  - right. do 2 eexists. evaluate.
Defined.

(** A cache file that holds a JSON array, and a second review on which
    [summarise] fails: two snapshots, each with an author. *)
Lemma run_snapshots_readable_witness :
  exists fin,
    run (scripted [reply "pos" (words 10); timeout; timeout; timeout])
        false (PList [PInt 1])
        [review_of "A" "Great" true; review_of "B" "Crashes" false] = Ok fin
    /\ length (snapshot_values fin) = 2%nat
    /\ Forall (fun o => exists v, o = Some v /\ has_author v)
              (snapshot_values fin).
Proof.
  apply (run_snapshots_readable
           (scripted [reply "pos" (words 10); timeout; timeout; timeout])
           false (PList [PInt 1])
           [review_of "A" "Great" true; review_of "B" "Crashes" false]).
  repeat (apply Forall_cons; split; [eexists; evaluate|]). apply Forall_nil_2.
Defined.


(** The second of three texts holds a lone surrogate; caching is off. *)
Lemma run_aborts_on_unhashable_witness :
  exists e,
    _hash_text (scripted [reply "pos" (words 10)])
               (text (surrogate_review "B")) = Raise e
    /\ run (scripted [reply "pos" (words 10)]) true PNone
           [review_of "A" "Great" true; surrogate_review "B";
            review_of "C" "Boring" false]
       = Raise e.
Proof.
  apply (run_aborts_on_unhashable (scripted [reply "pos" (words 10)]) true
           PNone
           [review_of "A" "Great" true; surrogate_review "B";
            review_of "C" "Boring" false]
           1 (surrogate_review "B")).
  - repeat (apply Forall_cons; split; [eexists; evaluate|]). apply Forall_nil_2.
  - reflexivity.
  - intros [key H]. vm_compute in H. discriminate H.
Defined.

(** A cache file that holds [[]]: the review is summarised, and the
    assignment to the cache fails. *)
Lemma run_unusable_cache_witness :
  exists fin,
    run (scripted [reply "pos" (words 10)]) false (PList [])
        [review_of "A" "Great" true] = Ok fin
    /\ length (snapshot_values fin) = 1%nat
    /\ Forall (fun o => exists v, o = Some v /\ error_record v)
              (snapshot_values fin).
Proof.
  apply (run_unusable_cache (scripted [reply "pos" (words 10)]) false
           (PList []) [review_of "A" "Great" true]).
  - reflexivity.
  - intros d. discriminate.
  - repeat (apply Forall_cons; split; [eexists; evaluate|]). apply Forall_nil_2.
Defined.

(** The title in capitals, with blanks around it. *)
Lemma get_appid_exact_witness :
  _get_appid (scripted [])
    (steam_script
       (steam_apps [steam_app "Half-Life" 70; steam_app "Portal 2" 620;
                    steam_app "portal 2" 999])
       (steam_reviews []) 0)
    (lit "  PORTAL 2 ") false (17 # 25)
  = Ok (PInt 620).
Proof.
  eapply (get_appid_exact (scripted []) _ (lit "  PORTAL 2 ") false (17 # 25)
            _ [steam_app "Half-Life" 70] [steam_app "portal 2" 999]
            (steam_app "Portal 2" 620) (lit "Portal 2")).
  - reflexivity.
  - reflexivity.
  - repeat constructor. exists (lit "Half-Life"). split; [reflexivity|].
    discriminate.
  - reflexivity.
  - reflexivity.
  - reflexivity.
Defined.

Lemma get_appid_not_found_witness :
  _get_appid (scripted [])
    (steam_script (steam_apps [steam_app "Half-Life" 70]) (steam_reviews []) 0)
    (lit "Portal") false (17 # 25)
  = Raise (ValueError "Game not found (tip: use fuzzy=True)").
Proof.
  eapply (get_appid_not_found (scripted []) _ (lit "Portal") (17 # 25)).
  - reflexivity.
  - reflexivity.
  - repeat constructor. exists (lit "Half-Life"). split; [reflexivity|].
    discriminate.
Defined.

(** A misspelt title, and the second name as its close match. *)
Lemma get_appid_fuzzy_witness :
  exists app appid,
    app ∈ [steam_app "Half-Life" 70; steam_app "Portal 2" 620]
    /\ getitem app (lit "name") = Ok (PStr (lit "Portal 2"))
    /\ getitem app (lit "appid") = Ok appid
    /\ _get_appid (scripted [])
         (steam_script
            (steam_apps [steam_app "Half-Life" 70; steam_app "Portal 2" 620])
            (steam_reviews []) 1)
         (lit "Portl 2") true (17 # 25)
       = Ok appid.
Proof.
  apply (get_appid_fuzzy (scripted [])
           (steam_script
              (steam_apps [steam_app "Half-Life" 70; steam_app "Portal 2" 620])
              (steam_reviews []) 1)
           (lit "Portl 2") (17 # 25)
           (PDict [(lit "applist",
                    PDict [(lit "apps",
                            PList [steam_app "Half-Life" 70;
                                   steam_app "Portal 2" 620])])])
           [steam_app "Half-Life" 70; steam_app "Portal 2" 620]
           [PStr (lit "Half-Life"); PStr (lit "Portal 2")]
           [PStr (lit "Portal 2")]).
  - reflexivity.
  - reflexivity.
  - repeat constructor; eexists; (split; [reflexivity|discriminate]).
  - repeat constructor; eexists; reflexivity.
  - reflexivity.
  - reflexivity.
Defined.

Lemma fetch_reviews_records_witness :
  exists revs,
    Forall2 (fun rev out =>
               review_record rev = Ok out
               /\ exists a t b,
                   out = PDict [(lit "author", a); (lit "text", t);
                                (lit "recommended", PBool b)])
            revs
            [PDict [(lit "author", PStr (lit "7656")); (lit "text", PStr (lit "Great"));
                    (lit "recommended", PBool true)];
             PDict [(lit "author", PStr (lit "7657")); (lit "text", PStr (lit "Boring"));
                    (lit "recommended", PBool false)]].
Proof.
  destruct (fetch_reviews_records (scripted [])
              (steam_script (steam_apps [steam_app "Portal 2" 620])
                 (steam_reviews [steam_review "7656" "Great" true;
                                 steam_review "7657" "Boring" false]) 0)
              (lit "portal 2") 3 false
              [PDict [(lit "author", PStr (lit "7656"));
                      (lit "text", PStr (lit "Great"));
                      (lit "recommended", PBool true)];
               PDict [(lit "author", PStr (lit "7657"));
                      (lit "text", PStr (lit "Boring"));
                      (lit "recommended", PBool false)]])
    as (appid & data & reviews & revs & _ & _ & _ & _ & H); [evaluate|].
  exists revs. exact H.
Defined.

(** The second of three reviews has no text. *)
Lemma fetch_reviews_all_or_nothing_witness :
  fetch_reviews (scripted [])
    (steam_script (steam_apps [steam_app "Portal 2" 620])
       (steam_reviews
          [steam_review "7656" "Great" true;
           PDict [(lit "author", PDict [(lit "steamid", PStr (lit "7657"))])];
           steam_review "7658" "Boring" false]) 0)
    (lit "portal 2") 3 false
  = Raise (Exn "KeyError" (lit "'review'")).
Proof.
  eapply (fetch_reviews_all_or_nothing (scripted []) _ (lit "portal 2") 3 false
            _ _ _ [steam_review "7656" "Great" true]
            [steam_review "7658" "Boring" false]
            (PDict [(lit "author", PDict [(lit "steamid", PStr (lit "7657"))])])).
  - evaluate.
  - reflexivity.
  - reflexivity.
  - reflexivity.
  - repeat constructor. eexists. reflexivity.
  - reflexivity.
Defined.
